(** * FinSight-AI: normalization, categorization and persistence pipeline

    A shallow embedding of [main.py], [ai_categorizer.py],
    [db/db_loader.py] and the category fill of [streamlit_app.py].  Text
    is a Rocq [string], a character being a code
    point below 256; a Python [float] is a
    binary64 primitive float; a [dict] keyed by strings is a [gmap]; the
    ordered [VENDOR_MAP] is an association list.  Calls that leave the
    process (HTTP, the file system, the console) are recorded in a trace and
    answered by an oracle that may depend on everything that happened so
    far. *)

From Stdlib Require Import ZArith Floats Ascii.
From stdpp Require Import gmap strings list.

Local Set Warnings "-register-all,-clear-no-such-hyp,-inexact-float".

(** ** Text helpers *)

(** [p in s] for two Python strings: [p] occurs in [s] as a contiguous
    run of characters. *)
Fixpoint startswith (s p : string) {struct p} : bool :=
  match p, s with
  | EmptyString, _ => true
  | String a p', String b s' => if Ascii.eqb a b then startswith s' p' else false
  | String _ _, EmptyString => false
  end.

Fixpoint contains (s p : string) : bool :=
  startswith s p ||
  match s with
  | EmptyString => false
  | String _ s' => contains s' p
  end.

(** [s.replace(",", "")]. *)
Fixpoint remove_commas (s : string) : string :=
  match s with
  | EmptyString => EmptyString
  | String a s' =>
      if Ascii.eqb a ","%char then remove_commas s' else String a (remove_commas s')
  end.

(** [str.isspace] on one character: the whitespace that [strip] and
    [split] remove. *)
Definition isspace (a : ascii) : bool :=
  let n := N_of_ascii a in
  bool_decide (9 ≤ n ≤ 13 ∨ 28 ≤ n ≤ 32 ∨ n = 133 ∨ n = 160)%N.

Definition lower_char (a : ascii) : ascii :=
  let n := N_of_ascii a in
  if bool_decide (65 ≤ n ≤ 90 ∨ 192 ≤ n ≤ 222 ∧ n ≠ 215)%N
  then ascii_of_N (n + 32)
  else a.

(** [s.lower()] *)
Fixpoint lower (s : string) : string :=
  match s with
  | EmptyString => EmptyString
  | String a s' => String (lower_char a) (lower s')
  end.

Fixpoint lstrip (s : string) : string :=
  match s with
  | EmptyString => EmptyString
  | String a s' => if isspace a then lstrip s' else s
  end.

(** Drops the trailing whitespace; the result is [None] when the whole
    string is whitespace. *)
Fixpoint rstrip_aux (s : string) : option string :=
  match s with
  | EmptyString => None
  | String a s' =>
      match rstrip_aux s' with
      | Some r => Some (String a r)
      | None => if isspace a then None else Some (String a EmptyString)
      end
  end.

Definition rstrip (s : string) : string := default EmptyString (rstrip_aux s).

(** [s.strip()] *)
Definition strip (s : string) : string := rstrip (lstrip s).

Fixpoint take_token (s : string) : string :=
  match s with
  | EmptyString => EmptyString
  | String a s' => if isspace a then EmptyString else String a (take_token s')
  end.

(** [s.split()[0]]: the first whitespace-delimited token, [None] when
    [s.split()] is empty (Python raises [IndexError]). *)
Definition first_token (s : string) : option string :=
  match lstrip s with
  | EmptyString => None
  | r => Some (take_token r)
  end.

(** ** Python values, exceptions and data frames *)

(** What [response.json()] and [json.load] produce.  A [VDict] lists the
    items of the dictionary; its keys are distinct. *)
Inductive value :=
| VNone
| VBool (b : bool)
| VInt (z : Z)
| VFloat (f : float)
| VStr (s : string)
| VList (l : list value)
| VDict (d : list (string * value)).

(** One cell of a frame read by [pd.read_csv]: text, or a number.  A
    missing cell is the float [nan]. *)
Inductive cell :=
| CStr (s : string)
| CNum (f : float).

Inductive timestamp :=
| NaT
| Timestamp (ns : Z).

(** Two values are the same when they are built the same way; for floats
    this is bitwise identity, under which [nan] equals itself. *)
Global Instance float_eq_dec : EqDecision float.
Proof.
  intros x y. destruct (PrimFloat.Leibniz.eqb x y) eqn:Heq.
  - left. by apply FloatAxioms.Leibniz.eqb_spec.
  - right. intros Hxy. apply FloatAxioms.Leibniz.eqb_spec in Hxy. congruence.
Defined.

Global Instance value_eq_dec : EqDecision value.
Proof.
  refine (fix go (v w : value) {struct v} : Decision (v = w) :=
    match v, w with
    | VNone, VNone => left _
    | VBool a, VBool b => cast_if (decide (a = b))
    | VInt a, VInt b => cast_if (decide (a = b))
    | VFloat a, VFloat b => cast_if (decide (a = b))
    | VStr a, VStr b => cast_if (decide (a = b))
    | VList l, VList k => cast_if (@decide (l = k) (list_eq_dec (dec := go) l k))
    | VDict d, VDict e =>
        cast_if (@decide (d = e) (list_eq_dec (dec := prod_eq_dec (EqDecision1 := go)) d e))
    | _, _ => right _
    end); clear go; congruence.
Defined.

Global Instance cell_eq_dec : EqDecision cell.
Proof. solve_decision. Defined.

Global Instance timestamp_eq_dec : EqDecision timestamp.
Proof. solve_decision. Defined.

(** Failures of the collaborators outside the process. *)
Inductive transport_error := Timeout | ConnectionError.
Inductive io_error := OSError (errno : Z) | ParserError | EmptyDataError.

Inductive exn :=
| KeyError (key : string)
| IndexError
| TypeError
| AttributeError
| ValueError_float (s : string)
| ValueError_datetime (column : list cell)
| ValueError_unsupported (source : string)
| JSONDecodeError
| HTTPError (status : Z)
| RequestException (e : transport_error)
| IOError (e : io_error).

Definition is_unsupported (e : exn) : bool :=
  match e with ValueError_unsupported _ => true | _ => false end.

(** The library functions the pipeline calls on floats and dates.  Their
    tables (decimal parsing and printing, date formats) are not
    reproduced: every result below holds for any implementation of this
    interface. *)
Class Platform := {
  (** [float(s)]; [None] when Python raises [ValueError] *)
  float_of_str : string → option float;
  (** [str(f)] for a float *)
  str_of_float : float → string;
  (** [pd.to_datetime] on the values of a column; [None] when it raises.
      The format is settled for the column as a whole, so a value is not
      parsed on its own. *)
  to_datetime : list cell → option (list timestamp);
  (** the result has one timestamp per value *)
  to_datetime_length (column : list cell) (dates : list timestamp) :
    to_datetime column = Some dates → length dates = length column;
}.

(** [str(x)] and [bool(x)]. *)
Definition cell_str `{Platform} (c : cell) : string :=
  match c with
  | CStr s => s
  | CNum f => str_of_float f
  end.

Definition cell_value (c : cell) : value :=
  match c with
  | CStr s => VStr s
  | CNum f => VFloat f
  end.

Definition truthy (v : value) : bool :=
  match v with
  | VNone => false
  | VBool b => b
  | VInt z => negb (z =? 0)%Z
  | VFloat f => negb (f =? 0)%float
  | VStr s => negb (String.eqb s "")
  | VList l => match l with [] => false | _ => true end
  | VDict d => match d with [] => false | _ => true end
  end.

Fixpoint dict_get (d : list (string * value)) (k : string) : option value :=
  match d with
  | [] => None
  | (k', v) :: d' => if String.eqb k' k then Some v else dict_get d' k
  end.

(** [v[0]] *)
Definition getitem_0 (v : value) : exn + value :=
  match v with
  | VList (x :: _) => inr x
  | VList [] => inl IndexError
  | VStr (String a _) => inr (VStr (String a ""))
  | VStr EmptyString => inl IndexError
  | VDict _ => inl (KeyError "0")
  | _ => inl TypeError
  end.

(** [v[k]] for a string key [k] *)
Definition getitem_str (v : value) (k : string) : exn + value :=
  match v with
  | VDict d => match dict_get d k with Some x => inr x | None => inl (KeyError k) end
  | _ => inl TypeError
  end.

(** [v.strip()] and [v.split()[0]] *)
Definition value_strip `{Platform} (v : value) : exn + value :=
  match v with
  | VStr s => inr (VStr (strip s))
  | _ => inl AttributeError
  end.

Definition value_first_token `{Platform} (v : value) : exn + value :=
  match v with
  | VStr s =>
      match first_token s with
      | Some tok => inr (VStr tok)
      | None => inl IndexError
      end
  | _ => inl AttributeError
  end.

(** A frame keeps the labels of its rows: filtering drops rows but never
    renumbers them. *)
Definition Series (A : Type) : Type := list (nat * A).

Record DataFrame := {
  columns : list string;
  rows : list (nat * gmap string cell);
}.

Definition missing : cell := CNum nan.

(** [df[name]] *)
Definition getitem (df : DataFrame) (name : string) : exn + Series cell :=
  if bool_decide (name ∈ columns df)
  then inr (prod_map id (λ r : gmap string cell, default missing (r !! name)) <$> rows df)
  else inl (KeyError name).

(** [df[mask]] for a boolean function of the row *)
Definition select (keep : gmap string cell → bool) (df : DataFrame) : DataFrame :=
  {| columns := columns df; rows := filter (λ r, keep r.2 = true) (rows df) |}.

(** [df[~df[name].apply(f)]]: the rows for which [keep] holds.  On a frame
    without rows [apply] returns an empty series of dtype [object], not
    [bool], and pandas reads the index as an empty list of column names:
    what comes back has no column at all. *)
Definition getitem_apply (keep : gmap string cell → bool) (df : DataFrame) : DataFrame :=
  match rows df with
  | [] => {| columns := []; rows := [] |}
  | _ :: _ => select keep df
  end.

(** [df[name] = s], for a series computed from [df] itself *)
Definition setitem (df : DataFrame) (name : string) (s : Series cell) : DataFrame :=
  {| columns := if bool_decide (name ∈ columns df) then columns df else columns df ++ [name];
     rows := zip_with (λ r x, (r.1, <[name := x.2]> r.2)) (rows df) s |}.

(** ** The outside world *)

(** The canonical record [normalize] builds. *)
Record NormRow := {
  date : timestamp;
  description : value;
  amount : cell;
  category : value;
  source : string;
}.

(** A file found by [INCOMING_DIR.glob("*.csv")]. *)
Record file := { stem : string }.

Definition name (f : file) : string := stem f +:+ ".csv".

Inductive request :=
| GET (url : string) (timeout : option Z)
| POST (url : string) (model : string) (prompt : string) (timeout : option Z).

Record response := {
  status_code : Z;
  (** the decoded body; [None] when [response.json()] raises *)
  body : option value;
}.

Inductive message :=
| MsgUnknownFormat (file_name : string)
| MsgProcessed (file_name norm_name : string)
| MsgFailed (file_name : string) (e : exn)
| MsgCategorizationFailed (e : exn).

Inductive event :=
| Http (r : request)
| ReadCsv (f : file)
| ToCsv (norm_file : string) (table : list NormRow)
| Rename (f : file)
| Print (m : message).

Definition trace := list event.

(** How the world answers.  Each answer may depend on the whole history,
    so services may change their replies from one call to the next. *)
Class Environment := {
  http_reply : trace → request → transport_error + response;
  csv_contents : trace → file → io_error + DataFrame;
  write_outcome : trace → string → option io_error;
  rename_outcome : trace → file → option io_error;
}.

(** ** Computations: a trace of events, and a result or an exception *)

Definition M (A : Type) : Type := trace → (exn + A) * trace.

Global Instance M_ret : MRet M := λ A x t, (inr x, t).
Global Instance M_bind : MBind M := λ A B f m t,
  match m t with
  | (inr x, t') => f x t'
  | (inl e, t') => (inl e, t')
  end.

Definition raise {A} (e : exn) : M A := λ t, (inl e, t).

Definition emit (ev : event) : M unit := λ t, (inr tt, t ++ [ev]).

Definition of_result {A} (r : exn + A) : M A :=
  match r with
  | inr x => mret x
  | inl e => raise e
  end.

(** [try: body  except Exception as e: handler(e)] (also the bare
    [except:]): every exception of the model is an [Exception]. *)
Definition try_except {A} (body : M A) (handler : exn → M A) : M A := λ t,
  match body t with
  | (inr x, t') => (inr x, t')
  | (inl e, t') => handler e t'
  end.

Definition print (m : message) : M unit := emit (Print m).

(** [series.apply(f)] *)
Definition apply {A B} (f : A → M B) (s : Series A) : M (Series B) :=
  mapM (λ ix, y ← f ix.2; mret (ix.1, y)) s.

(** A pure, fallible conversion applied to every element, stopping at the
    first failure ([astype]). *)
Fixpoint convert {A B} (f : A → exn + B) (s : Series A) : exn + Series B :=
  match s with
  | [] => inr []
  | (i, x) :: s' =>
      match f x with
      | inl e => inl e
      | inr y =>
          match convert f s' with
          | inl e => inl e
          | inr r => inr ((i, y) :: r)
          end
      end
  end.

Section World.
Context `{Platform} `{Environment}.

Definition requests (r : request) : M response := λ t,
  match http_reply t r with
  | inr resp => (inr resp, t ++ [Http r])
  | inl e => (inl (RequestException e), t ++ [Http r])
  end.

(** [response.json()] *)
Definition json (resp : response) : M value :=
  match body resp with
  | Some v => mret v
  | None => raise JSONDecodeError
  end.

Definition read_csv (f : file) : M DataFrame := λ t,
  match csv_contents t f with
  | inr df => (inr df, t ++ [ReadCsv f])
  | inl e => (inl (IOError e), t ++ [ReadCsv f])
  end.

Definition to_csv (norm_file : string) (table : list NormRow) : M unit := λ t,
  match write_outcome t norm_file with
  | None => (inr tt, t ++ [ToCsv norm_file table])
  | Some e => (inl (IOError e), t ++ [ToCsv norm_file table])
  end.

Definition rename (f : file) : M unit := λ t,
  match rename_outcome t f with
  | None => (inr tt, t ++ [Rename f])
  | Some e => (inl (IOError e), t ++ [Rename f])
  end.

End World.

(** ** main.py *)

Module Main.

(** [load_filter_keywords]: [contents] is [None] when the file does not
    exist, else its lines. *)
Definition load_filter_keywords (contents : option (list string)) : list string :=
  match contents with
  | None => []
  | Some lines =>
      (λ line, lower (strip line))
        <$> filter (λ line, strip line ≠ "") lines
  end.

Definition VENDOR_MAP : list (string * string) :=
  [ ("netflix", "Subscription");
    ("spotify", "Subscription");
    ("uber", "Transport");
    ("amazon", "Shopping");
    ("walmart", "Groceries") ].

(** The loop of [tag_vendor] over the items of a table, in order. *)
Fixpoint first_match (table : list (string * string)) (desc_lower : string) : option string :=
  match table with
  | [] => None
  | (vendor, tag) :: rest =>
      if contains desc_lower vendor then Some tag else first_match rest desc_lower
  end.

Section Pipeline.
Context `{Platform} `{Environment}.

(** The module-level tables, loaded once at import. *)
Variable FILTER_KEYWORDS : list string.
Variable FEEDBACK_TAGS : gmap string value.

Definition enrich_merchant (description : cell) : M value :=
  r ← try_except
        (response ← requests
           (GET ("https://autocomplete.clearbit.com/v1/companies/suggest?query="
                 +:+ cell_str description) (Some 5%Z));
         if (status_code response =? 200)%Z then
           data ← json response;
           if truthy data then
             first ← of_result (getitem_0 data);
             found ← of_result (getitem_str first "name");
             mret (Some found)
           else mret (Some (cell_value description))
         else mret None)
        (λ _, mret None);
  match r with
  | Some v => mret v
  | None => mret (cell_value description)
  end.

(** [description in FEEDBACK_TAGS]: the keys are strings, so a float
    is never found. *)
Definition feedback_lookup (description : cell) : option value :=
  match description with
  | CStr s => FEEDBACK_TAGS !! s
  | CNum _ => None
  end.

(** [d.get("response", "Uncategorized")] *)
Definition get_response (v : value) : exn + value :=
  match v with
  | VDict d => inr (default (VStr "Uncategorized") (dict_get d "response"))
  | _ => inl AttributeError
  end.

Definition suggest_prompt (description : cell) : string :=
  "Suggest a personal finance category for this transaction: '"
  +:+ cell_str description +:+ "'".

Definition ai_categorize (description : cell) : M value :=
  match feedback_lookup description with
  | Some tag => mret tag
  | None =>
      try_except
        (resp ← requests
           (POST "http://localhost:11434/api/generate" "mistral"
                 (suggest_prompt description) (Some 10%Z));
         data ← json resp;
         answer ← of_result (get_response data);
         of_result (value_strip answer))
        (λ _, mret (VStr "Uncategorized"))
  end.

(** [description.lower()] raises [AttributeError] on a float. *)
Definition tag_vendor (description : cell) : exn + option string :=
  match description with
  | CStr s => inr (first_match VENDOR_MAP (lower s))
  | CNum _ => inl AttributeError
  end.

Definition should_exclude (description : cell) : bool :=
  let desc := lower (cell_str description) in
  existsb (λ keyword, contains desc keyword) FILTER_KEYWORDS.

(** [tag_vendor(description) or ai_categorize(description)] *)
Definition get_category (description : cell) : M value :=
  tag ← of_result (tag_vendor description);
  match tag with
  | Some t => if truthy (VStr t) then mret (VStr t) else ai_categorize description
  | None => ai_categorize description
  end.

Definition detect_format (df : DataFrame) : string :=
  let cols : gset string := list_to_set (columns df) in
  if bool_decide ("Appears On Your Statement As" ∈ cols) then "amex"
  else if bool_decide
            ({[ "Transaction Date"; "Post Date"; "Description"; "Category";
                "Type"; "Amount"; "Memo" ]} ⊆ cols) then "chase"
  else if bool_decide ({[ "Transaction Date"; "Description"; "Points"; "Category" ]} ⊆ cols)
          && bool_decide ("Card No." ∉ cols) then "bilt"
  else if bool_decide ({[ "Posted Date"; "Card No."; "Debit"; "Credit" ]} ⊆ cols) then "capone"
  else "unknown".

(** [pd.to_datetime] on a column: the dates keep the labels of the rows. *)
Definition parse_dates (s : Series cell) : exn + Series timestamp :=
  match to_datetime s.*2 with
  | Some dates => inr (zip s.*1 dates)
  | None => inl (ValueError_datetime s.*2)
  end.

(** [.astype(float)] and [.fillna(0)] on one cell. *)

Definition astype_float (c : cell) : exn + float :=
  match c with
  | CNum f => inr f
  | CStr s =>
      match float_of_str s with
      | Some f => inr f
      | None => inl (ValueError_float s)
      end
  end.

Definition fillna_0 (c : cell) : cell :=
  match c with
  | CNum f => if is_nan f then CNum 0 else c
  | CStr _ => c
  end.

(** [.astype(str).str.replace(",", "").astype(float).abs()] on one cell *)
Definition chase_amount (c : cell) : exn + float :=
  let s := remove_commas (cell_str c) in
  match float_of_str s with
  | Some f => inr (abs f)
  | None => inl (ValueError_float s)
  end.

(** [pd.DataFrame({...})] from four series over one index and the
    scalar [source]. *)
Definition frame (dates : Series timestamp) (descriptions : Series value)
    (amounts : Series cell) (categories : Series value) (label : string) : Series NormRow :=
  zip_with
    (λ d x,
      (d.1, {| date := d.2; description := x.1.2; amount := x.2.1.2;
               category := x.2.2.2; source := label |}))
    dates (zip descriptions (zip amounts categories)).

(** The dictionary literal every branch of [normalize] builds, its
    entries evaluated in order: date, description, amount, category. *)
Definition canonical (df : DataFrame) (date_column : string)
    (amounts : M (Series cell)) (label : string) : M (Series NormRow) :=
  raw_dates ← of_result (getitem df date_column);
  dates ← of_result (parse_dates raw_dates);
  descriptions ← of_result (getitem df "Description") ≫= apply enrich_merchant;
  amounts ← amounts;
  categories ← of_result (getitem df "Description") ≫= apply get_category;
  mret (frame dates descriptions amounts categories label).

Definition as_cells (s : Series float) : Series cell := prod_map id CNum <$> s.

Definition normalize (df : DataFrame) (source : string) : M (Series NormRow) :=
  _ ← of_result (getitem df "Description");
  let df :=
    getitem_apply (λ r, negb (should_exclude (default missing (r !! "Description")))) df in
  if String.eqb source "amex" then
    canonical df "Date"
      (raw ← of_result (getitem df "Amount");
       floats ← of_result (convert astype_float raw);
       mret (as_cells floats))
      "Amex"
  else if String.eqb source "chase" then
    raw ← of_result (getitem df "Amount");
    cleaned ← of_result (convert chase_amount raw);
    let df := setitem df "Amount" (as_cells cleaned) in
    canonical df "Transaction Date" (of_result (getitem df "Amount")) "Chase"
  else if String.eqb source "bilt" then
    canonical df "Transaction Date"
      (raw ← of_result (getitem df "Amount");
       floats ← of_result (convert astype_float raw);
       mret (as_cells floats))
      "Bilt"
  else if String.eqb source "capone" then
    raw_debit ← of_result (getitem df "Debit");
    debit ← of_result (convert astype_float (prod_map id fillna_0 <$> raw_debit));
    raw_credit ← of_result (getitem df "Credit");
    credit ← of_result (convert astype_float (prod_map id fillna_0 <$> raw_credit));
    let df := setitem df "amount"
                (as_cells (zip_with (λ d c, (d.1, (d.2 - c.2)%float)) debit credit)) in
    canonical df "Transaction Date" (of_result (getitem df "amount")) "CapitalOne"
  else raise (ValueError_unsupported source).

Definition process_csv (file_path : file) : M unit :=
  df ← read_csv file_path;
  let source := detect_format df in
  if String.eqb source "unknown" then print (MsgUnknownFormat (name file_path))
  else
    norm_df ← normalize df source;
    let norm_file := stem file_path +:+ "_normalized.csv" in
    to_csv norm_file (snd <$> norm_df);;
    rename file_path;;
    print (MsgProcessed (name file_path) norm_file).

(** [files] is what [INCOMING_DIR.glob("*.csv")] yields. *)
Fixpoint run_pipeline (files : list file) : M unit :=
  match files with
  | [] => mret tt
  | f :: rest =>
      try_except (process_csv f) (λ e, print (MsgFailed (name f) e));;
      run_pipeline rest
  end.
End Pipeline.

End Main.

(** ** ai_categorizer.py *)

Module AiCategorizer.

Definition OLLAMA_URL : string := "http://localhost:11434/api/generate".

Definition dquote : string := String (ascii_of_nat 34) "".
Definition newline : string := String (ascii_of_nat 10) "".

Section Categorizer.
Context `{Platform} `{Environment}.

Definition prompt (description : cell) : string :=
  "You are a financial categorization engine. Given the following transaction "
  +:+ "description, return just one word that best represents the category it "
  +:+ "belongs to (e.g., "
  +:+ dquote +:+ "Groceries" +:+ dquote +:+ ", "
  +:+ dquote +:+ "Dining" +:+ dquote +:+ ", "
  +:+ dquote +:+ "Travel" +:+ dquote +:+ ", "
  +:+ dquote +:+ "Gas" +:+ dquote +:+ ", "
  +:+ dquote +:+ "Subscriptions" +:+ dquote +:+ ", "
  +:+ dquote +:+ "Utilities" +:+ dquote +:+ ", "
  +:+ dquote +:+ "Income" +:+ dquote +:+ ")."
  +:+ newline +:+ newline
  +:+ "Transaction: " +:+ dquote +:+ cell_str description +:+ dquote +:+ newline
  +:+ "Category:".

(** [response.raise_for_status()] *)
Definition raise_for_status (resp : response) : M unit :=
  if bool_decide (400 ≤ status_code resp < 600)%Z
  then raise (HTTPError (status_code resp))
  else mret tt.

Definition categorize_transaction (description : cell) : M value :=
  try_except
    (response ← requests (POST OLLAMA_URL "mistral" (prompt description) None);
     raise_for_status response;;
     data ← json response;
     answer ← of_result (getitem_str data "response");
     stripped ← of_result (value_strip answer);
     of_result (value_first_token stripped))
    (λ e, print (MsgCategorizationFailed e);; mret (VStr "Uncategorized")).
End Categorizer.

End AiCategorizer.

(** ** db/db_loader.py *)

Module DbLoader.

Inductive insert_error :=
| MissingColumn (column : string)
| Rejected
| InFailedSqlTransaction.

Inductive connect_error := OperationalError.

Section Persister.
(** The values handed to the store.  Two values count as the same for the
    uniqueness constraint exactly when they are equal. *)
Context {V : Type} `{EqDecision V}.

(** The default ["outflow"] of [row.get("direction", "outflow")]. *)
Variable outflow : V.

(** Every other condition the store puts on a row (column types, checks):
    [true] when the row is acceptable. *)
Variable acceptable_row : V * V * V * V * V * V * V → bool.

(** [psycopg2.connect]: [None] when the connection opens. *)
Variable connect : option connect_error.

Record StoredRow := {
  date : V;
  description : V;
  amount : V;
  category : V;
  direction : V;
  source : V;
  filename : V;
}.

Definition dedup_key (r : StoredRow) : V * V * V * V * V :=
  (date r, description r, amount r, source r, filename r).

Definition columns_of (r : StoredRow) : V * V * V * V * V * V * V :=
  (date r, description r, amount r, category r, direction r, source r, filename r).

Inductive report :=
| InsertError (e : insert_error)
| InsertedRowsFrom (file_name : V).

(** One open transaction: the rows committed before it began, the rows it
    has added, and whether a statement has failed in it. *)
Record session := {
  committed : list StoredRow;
  pending : list StoredRow;
  failed : bool;
}.

Definition visible (s : session) : list StoredRow := committed s ++ pending s.

(** Modelled from the spec: the [transactions] table, whose declaration is
    not among the sources.  The store holds a uniqueness constraint over
    [(date, description, amount, source, filename)] and supports an atomic
    insert-or-ignore; [INSERT ... ON CONFLICT DO NOTHING] therefore leaves
    the table as it is when a visible row has the key of the new one.  A
    statement that fails puts the transaction in the failed state, where
    every later statement fails too. *)
Definition execute (r : StoredRow) (s : session) : option insert_error * session :=
  if failed s then (Some InFailedSqlTransaction, s)
  else if negb (acceptable_row (columns_of r)) then
    (Some Rejected, {| committed := committed s; pending := pending s; failed := true |})
  else if bool_decide (dedup_key r ∈ dedup_key <$> visible s) then (None, s)
  else (None, {| committed := committed s; pending := pending s ++ [r]; failed := false |}).

(** Leaving [with conn:] commits; committing a failed transaction rolls it
    back. *)
Definition commit (s : session) : list StoredRow :=
  if failed s then committed s else visible s.

Definition column (row : gmap string V) (c : string) : insert_error + V :=
  match row !! c with
  | Some v => inr v
  | None => inl (MissingColumn c)
  end.

(** The parameter tuple of [cur.execute], built left to right. *)
Definition parameters (row : gmap string V) : insert_error + StoredRow :=
  match column row "date" with inl e => inl e | inr d =>
  match column row "description" with inl e => inl e | inr desc =>
  match column row "amount" with inl e => inl e | inr a =>
  match column row "category" with inl e => inl e | inr c =>
  let dir := default outflow (row !! "direction") in
  match column row "source" with inl e => inl e | inr src =>
  match column row "filename" with inl e => inl e | inr fn =>
  inr {| date := d; description := desc; amount := a; category := c;
         direction := dir; source := src; filename := fn |}
  end end end end end end.

(** The body of the [for] loop: [try: cur.execute(...)  except Exception
    as e: print(...)]. *)
Definition insert_row (acc : session * list report) (row : gmap string V) : session * list report :=
  match parameters row with
  | inl e => (acc.1, acc.2 ++ [InsertError e])
  | inr r =>
      match execute r acc.1 with
      | (None, s) => (s, acc.2)
      | (Some e, s) => (s, acc.2 ++ [InsertError e])
      end
  end.

Definition begin (store : list StoredRow) : session :=
  {| committed := store; pending := []; failed := false |}.

(** [insert_dataframe(df, filename)] on a store: the exception it raises
    or [None] it returns, the store afterwards, and what it printed. *)
Definition insert_dataframe (df : list (gmap string V)) (file_name : V)
    (store : list StoredRow) : (connect_error + unit) * list StoredRow * list report :=
  let df := (λ row, <["filename" := file_name]> row) <$> df in
  match connect with
  | Some e => (inl e, store, [])
  | None =>
      let '(s, printed) := foldl insert_row (begin store, []) df in
      (inr tt, commit s, printed ++ [InsertedRowsFrom file_name])
  end.

(** How many rows a call added to the store. *)
Definition inserted (df : list (gmap string V)) (file_name : V) (store : list StoredRow) : nat :=
  length (insert_dataframe df file_name store).1.2 - length store.
End Persister.

End DbLoader.

(** ** From the normalized frame to the persister

    [main.py] stops at the normalized CSV file and never calls
    [insert_dataframe].  Section 4.7 of the specification has every
    normalized frame persisted under the name of its source file; the
    scenarios that persist a frame follow it, handing the frame over as
    [normalize] returned it. *)

Module Persisted.

(** A value of one of the columns of a normalized frame, or a file name. *)
Inductive field :=
| FDate (d : timestamp)
| FValue (v : value)
| FAmount (c : cell)
| FText (s : string).

Global Instance field_eq_dec : EqDecision field.
Proof. solve_decision. Defined.

(** A row of the normalized frame, by column. *)
Definition record (o : NormRow) : gmap string field :=
  list_to_map
    [ ("date", FDate (date o)); ("description", FValue (description o));
      ("amount", FAmount (amount o)); ("category", FValue (category o));
      ("source", FText (source o)) ].

(** Modelled from the spec: the persist step of section 4.7, which
    [main.py] does not have.  It is [insert_dataframe(norm_df,
    file_path.name)] on a store that is reachable and has no other
    condition on a row than the uniqueness of its key. *)
Definition persist (norm_df : Series NormRow) (file_path : file)
    (store : list (@DbLoader.StoredRow field)) :
    (DbLoader.connect_error + unit) * list (@DbLoader.StoredRow field)
    * list (@DbLoader.report field) :=
  DbLoader.insert_dataframe (FText "outflow") (λ _, true) None
    (record ∘ snd <$> norm_df) (FText (name file_path)) store.

End Persisted.

(** ** main.py: the correction memory *)

Module Corrections.

(** What the feedback file holds: nothing, when it does not exist; the
    text of a dictionary, the only JSON the program writes there; or the
    beginning of such a text, left by a write that stopped part-way, which
    [json.load] rejects. *)
Inductive feedback_file :=
| Absent
| Holds (tags : gmap string value)
| Partial.

(** How a call of [save_feedback_tags] goes.  [open(..., "w")] may raise,
    and then the file is untouched.  Once it has returned the file is
    empty, and a failure of [json.dump] or of the close leaves what had
    reached the file by then: [whole] tells whether that is all of the
    text. *)
Inductive save_outcome :=
| Saved
| OpenFailed (e : io_error)
| WriteFailed (e : io_error) (whole : bool).

(** [load_feedback_tags]: [opened] is the error of [open(..., "r")], if
    any. *)
Definition load_feedback_tags (opened : option io_error) (contents : feedback_file) :
    exn + gmap string value :=
  match contents with
  | Absent => inr ∅
  | Holds tags =>
      match opened with
      | Some e => inl (IOError e)
      | None => inr tags
      end
  | Partial =>
      match opened with
      | Some e => inl (IOError e)
      | None => inl JSONDecodeError
      end
  end.

(** [save_feedback_tags]: what the call raises or returns, and the file
    afterwards. *)
Definition save_feedback_tags (outcome : save_outcome) (tag_dict : gmap string value)
    (contents : feedback_file) : (exn + unit) * feedback_file :=
  match outcome with
  | Saved => (inr tt, Holds tag_dict)
  | OpenFailed e => (inl (IOError e), contents)
  | WriteFailed e whole => (inl (IOError e), if whole then Holds tag_dict else Partial)
  end.

(** [update_tag_feedback]: the dictionary in memory is changed first, then
    written back.  The result is what the call raises or returns, the
    dictionary afterwards and the file afterwards. *)
Definition update_tag_feedback (outcome : save_outcome) (description : string)
    (corrected_tag : value) (FEEDBACK_TAGS : gmap string value)
    (contents : feedback_file) :
    (exn + unit) * gmap string value * feedback_file :=
  let FEEDBACK_TAGS := <[description := corrected_tag]> FEEDBACK_TAGS in
  let '(result, contents) := save_feedback_tags outcome FEEDBACK_TAGS contents in
  (result, FEEDBACK_TAGS, contents).

End Corrections.

(** ** streamlit_app.py: how the dashboard fills in a category *)

Module Streamlit.

Definition vendor_map : list (string * string) :=
  [ ("netflix", "Subscription");
    ("spotify", "Subscription");
    ("uber", "Transport");
    ("amazon", "Shopping");
    ("walmart", "Groceries") ].

(** [description.lower()] raises [AttributeError] on anything but text,
    [None] included. *)
Definition tag_vendor (description : value) : exn + option string :=
  match description with
  | VStr s => inr (Main.first_match vendor_map (lower s))
  | _ => inl AttributeError
  end.

Section Dashboard.
Context `{Platform} `{Environment}.

(** The dashboard's own [ai_categorize], for a description that is text
    (the only call passes one that [tag_vendor] has accepted). *)
Definition ai_categorize (description : string) : M value :=
  try_except
    (resp ← requests
       (POST "http://localhost:11434/api/generate" "mistral"
             ("Suggest a personal finance category for this transaction: '"
              +:+ description +:+ "'") (Some 10%Z));
     data ← json resp;
     answer ← of_result (Main.get_response data);
     of_result (value_strip answer))
    (λ _, mret (VStr "Uncategorized")).

(** [ai_categorize(row["description"])] as [load_data] reaches it: only
    after [tag_vendor] has lower-cased the description, hence with text. *)
Definition remote (description : value) : M value :=
  match description with
  | VStr s => ai_categorize s
  | _ => raise AttributeError
  end.

(** The function [load_data] applies to every row:
    [row["category"] or tag_vendor(row["description"]) or
    ai_categorize(row["description"])]. *)
Definition fill_category (category description : value) : M value :=
  if truthy category then mret category
  else
    tag ← of_result (tag_vendor description);
    match tag with
    | Some t => if truthy (VStr t) then mret (VStr t) else remote description
    | None => remote description
    end.
End Dashboard.

End Streamlit.

(** ** Test doubles

    A small platform and a scripted world, to run the pipeline on sample
    inputs.  The platform covers plain decimal numerals and ISO dates,
    which is all the samples use. *)

Module Stub.

Definition digit (a : ascii) : option Z :=
  let n := nat_of_ascii a in
  if bool_decide (48 ≤ n ≤ 57) then Some (Z.of_nat n - 48)%Z else None.

(** The number written by a run of digits, continuing from [acc]; the
    part of the text after the run is returned with it. *)
Fixpoint digits (s : string) (acc : Z) : Z * string :=
  match s with
  | EmptyString => (acc, s)
  | String a s' =>
      match digit a with
      | Some d => digits s' (10 * acc + d)%Z
      | None => (acc, s)
      end
  end.

Definition float_of_Z (z : Z) : float := of_uint63 (Uint63.of_Z z).

(** [digits.digits] with an optional sign.  Both the digit string and the
    power of ten are exact in binary64 within the bounds below, so the
    quotient is the correctly rounded value. *)
Definition parse_decimal (s : string) : option float :=
  let '(negative, s) :=
    match s with
    | String "-" s' => (true, s')
    | _ => (false, s)
    end in
  let '(whole, rest) := digits s 0 in
  let '(m, k, rest') :=
    match rest with
    | String "." frac =>
        let '(m, rest') := digits frac whole in
        (m, String.length frac - String.length rest', rest')
    | _ => (whole, 0, rest)
    end in
  if bool_decide (s ≠ "" ∧ s ≠ "." ∧ rest' = "" ∧ (m < 2 ^ 53)%Z ∧ k ≤ 22)
  then
    let q := (float_of_Z m / float_of_Z (10 ^ Z.of_nat k))%float in
    Some (if negative then (- q)%float else q)
  else None.

Definition parse_float (s : string) : option float :=
  if String.eqb s "nan" then Some nan else parse_decimal s.

(** Days from 1970-01-01 to a civil date. *)
Definition days_from_civil (y m d : Z) : Z :=
  let y := if (m <=? 2)%Z then (y - 1)%Z else y in
  let era := (y `div` 400)%Z in
  let yoe := (y - era * 400)%Z in
  let doy := ((153 * (if (2 <? m)%Z then m - 3 else m + 9) + 2) `div` 5 + d - 1)%Z in
  let doe := (yoe * 365 + yoe `div` 4 - yoe `div` 100 + doy)%Z in
  (era * 146097 + doe - 719468)%Z.

(** [YYYY-MM-DD] *)
Definition parse_iso_date (s : string) : option timestamp :=
  let '(y, r1) := digits s 0 in
  match r1 with
  | String "-" r1' =>
      let '(m, r2) := digits r1' 0 in
      match r2 with
      | String "-" r2' =>
          let '(d, r3) := digits r2' 0 in
          if bool_decide (String.length s = 10 ∧ r3 = "" ∧ (1 ≤ m ≤ 12)%Z ∧ (1 ≤ d ≤ 31)%Z)
          then Some (Timestamp (days_from_civil y m d * 86400 * 10 ^ 9))
          else None
      | _ => None
      end
  | _ => None
  end.

Definition parse_datetime (c : cell) : option timestamp :=
  match c with
  | CStr s => parse_iso_date s
  | CNum f => if is_nan f then Some NaT else None
  end.

(** A column of ISO dates, every value in the one format. *)
Definition parse_datetimes (column : list cell) : option (list timestamp) :=
  mapM parse_datetime column.

(** Only the missing value is printed as Python does; the samples hold no
    other float in a text position. *)
Definition print_float (f : float) : string :=
  if is_nan f then "nan" else "0.0".

Definition platform : Platform := {|
  float_of_str := parse_float;
  str_of_float := print_float;
  to_datetime := parse_datetimes;
  to_datetime_length := λ column dates Hdates,
    eq_sym (length_mapM parse_datetime column dates Hdates);
|}.

(** A world whose services answer by the request alone, and whose file
    system holds [files] and accepts every write and rename. *)
Definition world (service : request → transport_error + response)
    (files : file → io_error + DataFrame) : Environment := {|
  http_reply := λ _ r, service r;
  csv_contents := λ _ f, files f;
  write_outcome := λ _ _, None;
  rename_outcome := λ _ _, None;
|}.

Definition offline (r : request) : transport_error + response := inl Timeout.

Definition no_files (f : file) : io_error + DataFrame := inl (OSError 2).

(** A frame from a header and rows of cells, labelled 0, 1, 2, ... *)
Definition table (header : list string) (cells : list (list cell)) : DataFrame := {|
  columns := header;
  rows := imap (λ i r, (i, list_to_map (zip header r))) cells;
|}.

End Stub.

(** * Properties *)

(** ** Substring search *)

Lemma append_nil_l s : "" +:+ s = s.
Proof. reflexivity. Qed.

Lemma append_cons c a b : String c a +:+ b = String c (a +:+ b).
Proof. reflexivity. Qed.

Lemma startswith_app s p : startswith s p = true ↔ ∃ b, s = p +:+ b.
Proof.
  revert s. induction p as [|a p IH]; intros s; simpl.
  - split; [intros _; by exists s | done].
  - destruct s as [|c s].
    + split; [done | intros [b Hb]; discriminate].
    + setoid_rewrite append_cons.
      destruct (Ascii.eqb_spec a c) as [->|Hne].
      * rewrite IH. split; intros [b Hb]; exists b; congruence.
      * split; [done | intros [b Hb]; congruence].
Qed.

Lemma contains_spec s p : contains s p = true ↔ ∃ a b, s = a +:+ p +:+ b.
Proof.
  induction s as [|c s IH]; simpl.
  - rewrite orb_false_r, startswith_app. split.
    + intros [b Hb]. by exists "", b.
    + intros ([|x a] & b & Hb); [by exists b | discriminate].
  - rewrite orb_true_iff, startswith_app, IH. split.
    + intros [[b Hb] | (a & b & Hb)].
      * by exists "", b.
      * exists (String c a), b. rewrite append_cons. congruence.
    + intros ([|x a] & b & Hb).
      * left. by exists b.
      * right. exists a, b. rewrite append_cons in Hb. congruence.
Qed.

(** ** Schema detection *)

Section Detection.

Definition amex_signature (cols : gset string) : Prop :=
  "Appears On Your Statement As" ∈ cols.

Definition chase_signature (cols : gset string) : Prop :=
  {[ "Transaction Date"; "Post Date"; "Description"; "Category"; "Type"; "Amount"; "Memo" ]}
    ⊆ cols.

Definition bilt_signature (cols : gset string) : Prop :=
  {[ "Transaction Date"; "Description"; "Points"; "Category" ]} ⊆ cols ∧ "Card No." ∉ cols.

Definition capone_signature (cols : gset string) : Prop :=
  {[ "Posted Date"; "Card No."; "Debit"; "Credit" ]} ⊆ cols.

Definition header (df : DataFrame) : gset string := list_to_set (columns df).

Lemma detect_format_header (df df' : DataFrame) :
  header df = header df' → Main.detect_format df = Main.detect_format df'.
Proof. unfold header, Main.detect_format. by intros ->. Qed.

Lemma detect_format_cases (df : DataFrame) :
  Main.detect_format df =
    if bool_decide (amex_signature (header df)) then "amex"
    else if bool_decide (chase_signature (header df)) then "chase"
    else if bool_decide (bilt_signature (header df)) then "bilt"
    else if bool_decide (capone_signature (header df)) then "capone"
    else "unknown".
Proof.
  unfold Main.detect_format, amex_signature, chase_signature, bilt_signature,
    capone_signature, header.
  repeat case_bool_decide; simpl; try reflexivity; naive_solver.
Qed.

(** The range of [detect_format]. *)
Lemma detect_format_range (df : DataFrame) :
  Main.detect_format df ∈ ["amex"; "chase"; "bilt"; "capone"; "unknown"].
Proof.
  rewrite detect_format_cases. repeat case_bool_decide; set_solver.
Qed.

(** C4: [detect_format] depends on the set of column names only; the
    predicates are tried in the order amex, chase, bilt, capone and the
    first that holds decides the label; a header that satisfies none is
    ["unknown"]; and each of the three fully listed signatures, taken as
    the exact header, gets its own label. *)
Theorem detect_format_first_match (df : DataFrame) :
  let cols := header df in
  (∀ df', header df' = cols → Main.detect_format df' = Main.detect_format df)
  ∧ (amex_signature cols → Main.detect_format df = "amex")
  ∧ (¬ amex_signature cols → chase_signature cols → Main.detect_format df = "chase")
  ∧ (¬ amex_signature cols → ¬ chase_signature cols → bilt_signature cols →
     Main.detect_format df = "bilt")
  ∧ (¬ amex_signature cols → ¬ chase_signature cols → ¬ bilt_signature cols →
     capone_signature cols → Main.detect_format df = "capone")
  ∧ (¬ amex_signature cols → ¬ chase_signature cols → ¬ bilt_signature cols →
     ¬ capone_signature cols → Main.detect_format df = "unknown")
  ∧ (cols = {[ "Transaction Date"; "Post Date"; "Description"; "Category"; "Type";
               "Amount"; "Memo" ]} → Main.detect_format df = "chase")
  ∧ (cols = {[ "Transaction Date"; "Description"; "Points"; "Category" ]} →
     Main.detect_format df = "bilt")
  ∧ (cols = {[ "Posted Date"; "Card No."; "Debit"; "Credit" ]} →
     Main.detect_format df = "capone").
Proof.
  intros cols. subst cols.
  split; [intros df' Hdf'; by apply detect_format_header|].
  rewrite detect_format_cases.
  repeat split; try (intros; repeat case_bool_decide; done).
  all: intros ->; by vm_compute.
Qed.
End Detection.

(** ** Running a computation *)

Ltac run :=
  repeat first
    [ progress unfold mbind, M_bind, mret, M_ret, try_except, raise,
        of_result, requests, json, print, emit
    | progress simpl ].

Ltac run_in H :=
  repeat first
    [ progress unfold mbind, M_bind, mret, M_ret, try_except, raise,
        of_result, requests, json, print, emit in H
    | progress simpl in H ].

(** ** Merchant enrichment *)

Section Enrichment.
Context `{Platform} `{Environment}.

Definition suggest_url (description : cell) : request :=
  GET ("https://autocomplete.clearbit.com/v1/companies/suggest?query=" +:+ cell_str description)
      (Some 5%Z).

(** The value [enrich_merchant] returns, read off the reply. *)
Lemma enrich_merchant_run (description : cell) (t : trace) :
  Main.enrich_merchant description t =
    (inr match http_reply t (suggest_url description) with
         | inl _ => cell_value description
         | inr resp =>
             if (status_code resp =? 200)%Z then
               match body resp with
               | None => cell_value description
               | Some data =>
                   if truthy data then
                     match getitem_0 data with
                     | inl _ => cell_value description
                     | inr first =>
                         match getitem_str first "name" with
                         | inl _ => cell_value description
                         | inr found => found
                         end
                     end
                   else cell_value description
               end
             else cell_value description
         end,
     t ++ [Http (suggest_url description)]).
Proof.
  unfold Main.enrich_merchant, suggest_url. run.
  destruct (http_reply t _) as [e|resp]; [done|].
  destruct (status_code resp =? 200)%Z; [|done].
  destruct (body resp) as [data|]; [|done].
  destruct (truthy data); [|done].
  destruct (getitem_0 data) as [e|first]; [done|]. simpl.
  by destruct (getitem_str first "name").
Qed.

(** C7: [enrich_merchant] makes one lookup and always returns a value.  A
    reply with status 200 whose body is a non-empty list returns the name
    of the first candidate; a failed request, another status, a body that
    is not JSON and an empty list all return the description as given. *)
Theorem enrich_merchant_never_raises (description : cell) (t : trace) :
  let out := Main.enrich_merchant description t in
  let reply := http_reply t (suggest_url description) in
  (∃ v, out = (inr v, t ++ [Http (suggest_url description)]))
  ∧ (∀ resp d rest found,
       reply = inr resp → status_code resp = 200%Z →
       body resp = Some (VList (VDict d :: rest)) → dict_get d "name" = Some found →
       out.1 = inr found)
  ∧ (∀ e, reply = inl e → out.1 = inr (cell_value description))
  ∧ (∀ resp, reply = inr resp → status_code resp ≠ 200%Z →
       out.1 = inr (cell_value description))
  ∧ (∀ resp, reply = inr resp → body resp = None → out.1 = inr (cell_value description))
  ∧ (∀ resp, reply = inr resp → body resp = Some (VList []) →
       out.1 = inr (cell_value description)).
Proof.
  intros out reply. subst out reply. rewrite enrich_merchant_run.
  split; [eauto|]. simpl.
  split; [intros resp d rest found -> -> -> ; simpl; by intros ->|].
  split; [by intros e ->|].
  split; [intros resp -> Hs; by apply Z.eqb_neq in Hs as ->|].
  split; [intros resp -> ->; by destruct (_ =? _)%Z|].
  intros resp -> ->; by destruct (_ =? _)%Z.
Qed.
End Enrichment.

(** ** Category resolution *)

Lemma first_match_none (table : list (string * string)) (s : string) :
  (∀ vendor tag, (vendor, tag) ∈ table → contains s vendor = false) →
  Main.first_match table s = None.
Proof.
  induction table as [|[v g] table IH]; intros Hno; simpl; [done|].
  rewrite (Hno v g) by left. apply IH. intros v' g' Hin. apply (Hno v' g'). by right.
Qed.

Lemma first_match_first (before after : list (string * string)) vendor tag (s : string) :
  (∀ v g, (v, g) ∈ before → contains s v = false) →
  contains s vendor = true →
  Main.first_match (before ++ (vendor, tag) :: after) s = Some tag.
Proof.
  induction before as [|[v g] before IH]; intros Hno Hyes; simpl.
  - by rewrite Hyes.
  - rewrite (Hno v g) by left. apply IH; [|done].
    intros v' g' Hin. apply (Hno v' g'). by right.
Qed.

Lemma VENDOR_MAP_tags_truthy vendor tag :
  (vendor, tag) ∈ Main.VENDOR_MAP → truthy (VStr tag) = true.
Proof.
  unfold Main.VENDOR_MAP. rewrite !elem_of_cons, elem_of_nil.
  intros [?|[?|[?|[?|[?|[]]]]]]; by simplify_eq.
Qed.

Section Resolution.
Context `{Platform} `{Environment}.
Variable FEEDBACK_TAGS : gmap string value.

Definition suggest_request (description : cell) : request :=
  POST "http://localhost:11434/api/generate" "mistral"
       (Main.suggest_prompt description) (Some 10%Z).

(** What the remote step of [ai_categorize] returns, read off the reply. *)
Definition remote_answer (reply : transport_error + response) : value :=
  match reply with
  | inl _ => VStr "Uncategorized"
  | inr resp =>
      match body resp with
      | Some (VDict d) =>
          match dict_get d "response" with
          | Some (VStr text) => VStr (strip text)
          | Some _ => VStr "Uncategorized"
          | None => VStr "Uncategorized"
          end
      | _ => VStr "Uncategorized"
      end
  end.

Lemma ai_categorize_run (description : cell) (t : trace) :
  Main.ai_categorize FEEDBACK_TAGS description t =
    match Main.feedback_lookup FEEDBACK_TAGS description with
    | Some tag => (inr tag, t)
    | None =>
        (inr (remote_answer (http_reply t (suggest_request description))),
         t ++ [Http (suggest_request description)])
    end.
Proof.
  unfold Main.ai_categorize, suggest_request.
  destruct (Main.feedback_lookup _ _) as [tag|]; [done|]. run.
  destruct (http_reply t _) as [e|resp]; [done|]. simpl.
  destruct (body resp) as [[| | | | | |d]|]; try done. simpl.
  destruct (dict_get d "response") as [[]|]; done.
Qed.

(** C2: vendor rules, then correction memory, then the remote service.  When
    a rule's pattern occurs in the lower-cased description and no earlier
    rule's does, the result is that rule's category, whatever the memory
    and the service hold, and nothing is requested.  When no pattern occurs
    and the description is a key of the memory, the result is the memorized
    category, and again nothing is requested: the trace is unchanged. *)
Theorem get_category_resolution_order (description : string) (t : trace) :
  (∀ before vendor tag after,
     Main.VENDOR_MAP = before ++ (vendor, tag) :: after →
     contains (lower description) vendor = true →
     (∀ v g, (v, g) ∈ before → contains (lower description) v = false) →
     Main.get_category FEEDBACK_TAGS (CStr description) t = (inr (VStr tag), t))
  ∧ (∀ memorized,
       (∀ vendor tag, (vendor, tag) ∈ Main.VENDOR_MAP →
                      contains (lower description) vendor = false) →
       FEEDBACK_TAGS !! description = Some memorized →
       Main.get_category FEEDBACK_TAGS (CStr description) t = (inr memorized, t)).
Proof.
  split.
  - intros before vendor tag after Hmap Hyes Hno.
    assert (truthy (VStr tag) = true) as Htag.
    { apply (VENDOR_MAP_tags_truthy vendor). rewrite Hmap.
      apply elem_of_app. right. by left. }
    unfold Main.get_category, Main.tag_vendor.
    rewrite Hmap, (first_match_first _ _ _ tag) by done.
    run. simpl in Htag. by rewrite Htag.
  - intros memorized Hno Hmem.
    unfold Main.get_category, Main.tag_vendor.
    rewrite first_match_none by done.
    run. rewrite ai_categorize_run. simpl. by rewrite Hmem.
Qed.

(** C3, as the code has it: a description that is not in the correction
    memory costs exactly one request, sent with a timeout of ten seconds;
    the call never raises; a failed request, a body that is not a JSON
    object, and an object without a textual ["response"] all give
    ["Uncategorized"]; a textual ["response"] is returned whole, stripped
    of the whitespace around it. *)
Theorem ai_categorize_remote (description : cell) (t : trace) :
  Main.feedback_lookup FEEDBACK_TAGS description = None →
  let request := suggest_request description in
  let out := Main.ai_categorize FEEDBACK_TAGS description t in
  request = POST "http://localhost:11434/api/generate" "mistral"
                 (Main.suggest_prompt description) (Some 10%Z)
  ∧ out.2 = t ++ [Http request]
  ∧ out.1 = inr (remote_answer (http_reply t request))
  ∧ (∀ e, http_reply t request = inl e → out.1 = inr (VStr "Uncategorized"))
  ∧ (∀ resp, http_reply t request = inr resp → body resp = None →
       out.1 = inr (VStr "Uncategorized"))
  ∧ (∀ resp d, http_reply t request = inr resp → body resp = Some (VDict d) →
       dict_get d "response" = None → out.1 = inr (VStr "Uncategorized"))
  ∧ (∀ resp d text, http_reply t request = inr resp → body resp = Some (VDict d) →
       dict_get d "response" = Some (VStr text) → out.1 = inr (VStr (strip text))).
Proof.
  intros Hmem request out. subst request out.
  rewrite ai_categorize_run, Hmem. simpl.
  split; [done|]. split; [done|]. split; [done|].
  split; [by intros e ->|].
  split; [intros resp -> Hb; simpl; by rewrite Hb|].
  split; [intros resp d -> Hb Hd; simpl; by rewrite Hb, Hd|].
  intros resp d text -> Hb Hd; simpl; by rewrite Hb, Hd.
Qed.
End Resolution.

(** ** What a computation may emit and raise *)

(** [behaves P Q m]: from any trace, [m] only appends events satisfying
    [P], and an exception it raises satisfies [Q]. *)
Definition behaves {A} (P : event → Prop) (Q : exn → Prop) (m : M A) : Prop :=
  ∀ t, ∃ evs, (m t).2 = t ++ evs ∧ Forall P evs ∧ ∀ e, (m t).1 = inl e → Q e.

Lemma behaves_ret {A} P Q (x : A) : behaves P Q (mret x).
Proof. intros t. exists []. by rewrite app_nil_r. Qed.

Lemma behaves_raise {A} P (Q : exn → Prop) e : Q e → behaves (A := A) P Q (raise e).
Proof.
  intros HQ t. exists []. rewrite app_nil_r.
  repeat split; [done|]. intros e' [= <-]. done.
Qed.

Lemma behaves_of_result {A} P (Q : exn → Prop) (r : exn + A) :
  (∀ e, r = inl e → Q e) → behaves P Q (of_result r).
Proof.
  destruct r as [e|x]; intros HQ; [apply behaves_raise; by apply HQ | apply behaves_ret].
Qed.

Lemma behaves_emit P Q ev : P ev → behaves P Q (emit ev).
Proof.
  intros HP t. exists [ev]. repeat split; [by constructor | done].
Qed.

(** The continuation only has to behave on the results [m] can return. *)
Lemma behaves_bind {A B} P Q (R : A → Prop) (m : M A) (f : A → M B) :
  behaves P Q m →
  (∀ t x, (m t).1 = inr x → R x) →
  (∀ x, R x → behaves P Q (f x)) →
  behaves P Q (m ≫= f).
Proof.
  intros Hm HR Hf t. unfold mbind, M_bind.
  destruct (Hm t) as (evs & Ht & HP & HQ). specialize (HR t).
  destruct (m t) as [[e|x] t1]; simpl in *; subst t1.
  - exists evs. repeat split; [done|]. intros e' [= <-]. by apply HQ.
  - destruct (Hf x (HR x eq_refl) (t ++ evs)) as (evs' & Ht' & HP' & HQ').
    exists (evs ++ evs'). rewrite Ht', app_assoc.
    repeat split; [by apply Forall_app | done].
Qed.

Lemma behaves_bind' {A B} P Q (m : M A) (f : A → M B) :
  behaves P Q m → (∀ x, behaves P Q (f x)) → behaves P Q (m ≫= f).
Proof. intros Hm Hf. apply (behaves_bind P Q (λ _, True)); auto. Qed.

Lemma behaves_try_except {A} P Q Q' (body : M A) (handler : exn → M A) :
  behaves P Q' body → (∀ e, behaves P Q (handler e)) →
  behaves P Q (try_except body handler).
Proof.
  intros Hb Hh t. unfold try_except.
  destruct (Hb t) as (evs & Ht & HP & HQ).
  destruct (body t) as [[e|x] t1]; simpl in *; subst t1.
  - destruct (Hh e (t ++ evs)) as (evs' & Ht' & HP' & HQ').
    exists (evs ++ evs'). rewrite Ht', app_assoc.
    repeat split; [by apply Forall_app | done].
  - exists evs. repeat split; done.
Qed.

Lemma behaves_weaken {A} (P P' : event → Prop) (Q Q' : exn → Prop) (m : M A) :
  (∀ ev, P ev → P' ev) → (∀ e, Q e → Q' e) → behaves P Q m → behaves P' Q' m.
Proof.
  intros HP HQ Hm t. destruct (Hm t) as (evs & Ht & HPs & HQs).
  exists evs. repeat split; [done | by eapply Forall_impl | auto].
Qed.

Lemma behaves_mapM {A B} P Q (f : A → M B) (l : list A) :
  (∀ x, x ∈ l → behaves P Q (f x)) → behaves P Q (mapM f l).
Proof.
  induction l as [|x l IH]; intros Hf; simpl; [apply behaves_ret|].
  apply behaves_bind'; [apply Hf; by left|]. intros y.
  apply behaves_bind'; [apply IH; intros z Hz; apply Hf; by right|]. intros k.
  apply behaves_ret.
Qed.

(** A successful [mapM] returns one result per element. *)
Lemma mapM_length {A B} (f : A → M B) (l : list A) t r t' :
  mapM f l t = (inr r, t') → length r = length l.
Proof.
  revert t r t'. induction l as [|x l IH]; intros t r t'; simpl.
  - by intros [= <- _].
  - unfold mbind, M_bind, mret, M_ret.
    destruct (f x t) as [[e|y] t1]; [done|].
    destruct (mapM f l t1) as [[e|k] t2] eqn:Hk; [done|].
    intros [= <- _]. simpl. f_equal. by eapply IH.
Qed.

(** ** Series and frames *)

Lemma of_result_inr {A} (r : exn + A) t x : (of_result r t).1 = inr x → r = inr x.
Proof. destruct r; [done | by intros [= ->]]. Qed.

Lemma getitem_inl df c e : getitem df c = inl e → e = KeyError c.
Proof. unfold getitem. case_bool_decide; [done | by intros [= <-]]. Qed.

Lemma getitem_inr df c s :
  getitem df c = inr s →
  s = prod_map id (λ r : gmap string cell, default missing (r !! c)) <$> rows df.
Proof. unfold getitem. case_bool_decide; [by intros [= <-] | done]. Qed.

Lemma getitem_fst df c s : getitem df c = inr s → s.*1 = (rows df).*1.
Proof.
  intros ->%getitem_inr. rewrite <-list_fmap_compose. by apply list_fmap_ext; intros [].
Qed.

Lemma convert_inl {A B} (f : A → exn + B) (s : Series A) e :
  convert f s = inl e → ∃ x, x ∈ s ∧ f x.2 = inl e.
Proof.
  induction s as [|[i x] s IH]; simpl; [done|].
  destruct (f x) as [e'|y] eqn:Hx.
  - intros [= <-]. exists (i, x). split; [by left | done].
  - destruct (convert f s) as [e'|r]; [|done].
    intros [= <-]. destruct IH as (z & Hz & Hf); [done|]. exists z. split; [by right | done].
Qed.

Lemma convert_inr {A B} (f : A → exn + B) (s : Series A) r :
  convert f s = inr r → Forall2 (λ x y, x.1 = y.1 ∧ f x.2 = inr y.2) s r.
Proof.
  revert r. induction s as [|[i x] s IH]; intros r; simpl.
  - intros [= <-]. constructor.
  - destruct (f x) as [e'|y] eqn:Hx; [done|].
    destruct (convert f s) as [e'|r']; [done|].
    intros [= <-]. constructor; [done | by apply IH].
Qed.

Lemma convert_fst {A B} (f : A → exn + B) (s : Series A) r :
  convert f s = inr r → r.*1 = s.*1.
Proof.
  intros Hr%convert_inr. induction Hr as [|x y s r [Hxy _] _ IH]; [done|].
  csimpl. by rewrite IH, Hxy.
Qed.

Lemma apply_fst {A B} (f : A → M B) (s : Series A) t r t' :
  apply f s t = (inr r, t') → r.*1 = s.*1.
Proof.
  unfold apply. revert t r t'. induction s as [|[i x] s IH]; intros t r t'; simpl.
  - by intros [= <- _].
  - unfold mbind, M_bind, mret, M_ret. simpl.
    destruct (f x t) as [[e|y] t1]; [done|].
    destruct (mapM (M := M) _ s t1) as [[e|k] t2] eqn:Hk; [done|].
    intros [= <- _]. csimpl. f_equal. by eapply IH.
Qed.

Lemma apply_behaves {A B} P Q (f : A → M B) (s : Series A) :
  (∀ x, x ∈ s → behaves P Q (f x.2)) → behaves P Q (apply f s).
Proof.
  intros Hf. apply behaves_mapM. intros x Hx.
  apply behaves_bind'; [by apply Hf|]. intros y. apply behaves_ret.
Qed.

Lemma parse_dates_inl `{Platform} (s : Series cell) e :
  Main.parse_dates s = inl e → e = ValueError_datetime s.*2.
Proof. unfold Main.parse_dates. destruct (to_datetime _); [done | by intros [= <-]]. Qed.

Lemma parse_dates_inr `{Platform} (s : Series cell) (r : Series timestamp) :
  Main.parse_dates s = inr r → r.*1 = s.*1 ∧ to_datetime s.*2 = Some r.*2.
Proof.
  unfold Main.parse_dates. destruct (to_datetime _) as [dates|] eqn:Hdates; [|done].
  intros [= <-]. apply to_datetime_length in Hdates. rewrite length_fmap in Hdates.
  rewrite fst_zip, snd_zip; [done| |]; rewrite length_fmap; lia.
Qed.

Lemma as_cells_fst (s : Series float) : (Main.as_cells s).*1 = s.*1.
Proof. unfold Main.as_cells. rewrite <-list_fmap_compose. by apply list_fmap_ext; intros []. Qed.

(** Writing a column leaves the labels alone, and reading it back gives
    the series that was written. *)
Lemma setitem_fst df c (s : Series cell) :
  s.*1 = (rows df).*1 → (rows (setitem df c s)).*1 = (rows df).*1.
Proof.
  simpl. revert s. induction (rows df) as [|[i r] l IH]; intros [|[j x] s]; try done.
  intros [= -> Hs]. csimpl. f_equal. by apply IH.
Qed.

Lemma getitem_setitem df c (s : Series cell) :
  s.*1 = (rows df).*1 → getitem (setitem df c s) c = inr s.
Proof.
  intros Hs. unfold getitem. rewrite bool_decide_eq_true_2.
  - f_equal. simpl. revert s Hs.
    induction (rows df) as [|[i r] l IH]; intros [|[j x] s]; simpl; try done.
    intros [= -> Hs]. rewrite lookup_insert_eq. simpl. f_equal. by apply IH.
  - simpl. case_bool_decide; [done|]. apply elem_of_app. right. by left.
Qed.

Lemma getitem_setitem_ne df c c' (s : Series cell) x :
  c ≠ c' → x ∈ (rows (setitem df c s)) →
  ∃ y, y ∈ rows df ∧ y.1 = x.1 ∧ y.2 !! c' = x.2 !! c'.
Proof.
  intros Hne (r & z & -> & Hr & _)%elem_of_zip_with.
  exists r. split; [done|]. simpl. by rewrite lookup_insert_ne.
Qed.

(** ** Normalization: events and exceptions *)

Section Normalization.
Context `{Platform} `{Environment}.
Variable FILTER_KEYWORDS : list string.
Variable FEEDBACK_TAGS : gmap string value.

Definition description_of (r : gmap string cell) : cell := default missing (r !! "Description").

(** The frame [normalize] works on after its first line. *)
Definition kept (df : DataFrame) : DataFrame :=
  getitem_apply (λ r, negb (Main.should_exclude FILTER_KEYWORDS (description_of r))) df.

(** A request made for the description of some row of [df]. *)
Definition about (df : DataFrame) (ev : event) : Prop :=
  ∃ x, x ∈ rows df ∧
    (ev = Http (suggest_url (description_of x.2))
     ∨ ev = Http (suggest_request (description_of x.2))).

Definition supported (e : exn) : Prop := is_unsupported e = false.

Lemma enrich_merchant_behaves (c : cell) :
  behaves (λ ev, ev = Http (suggest_url c)) (λ _, False) (Main.enrich_merchant c).
Proof.
  intros t. rewrite enrich_merchant_run. exists [Http (suggest_url c)].
  repeat split; [by constructor | done].
Qed.

Lemma ai_categorize_behaves (c : cell) :
  behaves (λ ev, ev = Http (suggest_request c)) (λ _, False)
    (Main.ai_categorize FEEDBACK_TAGS c).
Proof.
  intros t. rewrite ai_categorize_run. destruct (Main.feedback_lookup _ _).
  - exists []. by rewrite app_nil_r.
  - exists [Http (suggest_request c)]. repeat split; [by constructor | done].
Qed.

Lemma get_category_behaves (c : cell) :
  behaves (λ ev, ev = Http (suggest_request c)) (λ e, e = AttributeError)
    (Main.get_category FEEDBACK_TAGS c).
Proof.
  assert (behaves (λ ev, ev = Http (suggest_request c)) (λ e, e = AttributeError)
            (Main.ai_categorize FEEDBACK_TAGS c)) as Hai.
  { eapply behaves_weaken; [| |apply ai_categorize_behaves]; done. }
  unfold Main.get_category. apply behaves_bind'.
  - apply behaves_of_result. intros e. destruct c; [done | by intros [= <-]].
  - intros [t|]; [|done]. destruct (truthy _); [apply behaves_ret | done].
Qed.

Lemma getitem_description df s x :
  getitem df "Description" = inr s → x ∈ s →
  ∃ y, y ∈ rows df ∧ x.2 = description_of y.2.
Proof.
  intros ->%getitem_inr (y & -> & Hy)%list_elem_of_fmap. by exists y.
Qed.

Lemma canonical_behaves df df0 date_column amounts label :
  (∀ x, x ∈ rows df → ∃ y, y ∈ rows df0 ∧ description_of y.2 = description_of x.2) →
  behaves (about df0) supported amounts →
  behaves (about df0) supported (Main.canonical FEEDBACK_TAGS df date_column amounts label).
Proof.
  intros Hrows Hamounts. unfold Main.canonical.
  apply behaves_bind'.
  { apply behaves_of_result. by intros e ->%getitem_inl. }
  intros raw_dates. apply behaves_bind'.
  { apply behaves_of_result. by intros e ->%parse_dates_inl. }
  intros dates. apply behaves_bind'.
  { apply (behaves_bind _ _ (λ s, getitem df "Description" = inr s)).
    - apply behaves_of_result. by intros e ->%getitem_inl.
    - intros t s. apply of_result_inr.
    - intros s Hs. apply apply_behaves. intros x Hx.
      destruct (getitem_description _ _ _ Hs Hx) as (y & Hy & ->).
      destruct (Hrows y Hy) as (z & Hz & <-).
      eapply behaves_weaken; [| |apply enrich_merchant_behaves]; [|done].
      intros ev ->. exists z. split; [done | by left]. }
  intros descriptions. apply behaves_bind'; [done|].
  intros amts. apply behaves_bind'; [|intros; apply behaves_ret].
  apply (behaves_bind _ _ (λ s, getitem df "Description" = inr s)).
  - apply behaves_of_result. by intros e ->%getitem_inl.
  - intros t s. apply of_result_inr.
  - intros s Hs. apply apply_behaves. intros x Hx.
    destruct (getitem_description _ _ _ Hs Hx) as (y & Hy & ->).
    destruct (Hrows y Hy) as (z & Hz & <-).
    eapply behaves_weaken; [| |apply get_category_behaves].
    + intros ev ->. exists z. split; [done | by right].
    + by intros e ->.
Qed.

Lemma astype_float_supported (s : Series cell) e :
  convert Main.astype_float s = inl e → supported e.
Proof.
  intros (x & _ & Hx)%convert_inl. unfold Main.astype_float in Hx.
  destruct (x.2); [|done]. destruct (float_of_str _); by simplify_eq.
Qed.

Lemma plain_amount_behaves P df :
  behaves P supported
    (raw ← of_result (getitem df "Amount");
     floats ← of_result (convert Main.astype_float raw);
     mret (Main.as_cells floats)).
Proof.
  apply behaves_bind'.
  { apply behaves_of_result. by intros e ->%getitem_inl. }
  intros raw. apply behaves_bind'; [|intros; apply behaves_ret].
  apply behaves_of_result, astype_float_supported.
Qed.

Definition labels : list string := ["amex"; "chase"; "bilt"; "capone"].

(** Everything [normalize] requests concerns a row that was kept, and it
    raises "Unsupported CSV format" for no label it has a branch for. *)
Lemma normalize_behaves df source :
  behaves (about (kept df)) (λ e, is_unsupported e = true → source ∉ labels)
    (Main.normalize FILTER_KEYWORDS FEEDBACK_TAGS df source).
Proof.
  assert (∀ m : M (Series NormRow), behaves (about (kept df)) supported m →
            behaves (about (kept df)) (λ e, is_unsupported e = true → source ∉ labels) m)
    as Hweak.
  { intros m. apply behaves_weaken; [done|]. unfold supported. intros e -> ?. done. }
  unfold Main.normalize. fold description_of. fold (kept df).
  apply behaves_bind'.
  { apply behaves_of_result. by intros e ->%getitem_inl. }
  intros _.
  destruct (String.eqb_spec source "amex") as [->|Hamex].
  { apply Hweak, canonical_behaves; [eauto | apply plain_amount_behaves]. }
  destruct (String.eqb_spec source "chase") as [->|Hchase].
  { apply Hweak. apply behaves_bind'.
    { apply behaves_of_result. by intros e ->%getitem_inl. }
    intros raw. apply behaves_bind'.
    { apply behaves_of_result. intros e (x & _ & Hx)%convert_inl.
      unfold Main.chase_amount in Hx. destruct (float_of_str _); by simplify_eq. }
    intros cleaned. apply canonical_behaves.
    - intros x (y & Hy & _ & Hxy)%(getitem_setitem_ne _ _ "Description"); [|done].
      exists y. split; [done|]. unfold description_of. by rewrite Hxy.
    - apply behaves_of_result. by intros e ->%getitem_inl. }
  destruct (String.eqb_spec source "bilt") as [->|Hbilt].
  { apply Hweak, canonical_behaves; [eauto | apply plain_amount_behaves]. }
  destruct (String.eqb_spec source "capone") as [->|Hcapone].
  { apply Hweak. apply behaves_bind'.
    { apply behaves_of_result. by intros e ->%getitem_inl. }
    intros raw_debit. apply behaves_bind'.
    { apply behaves_of_result, astype_float_supported. }
    intros debit. apply behaves_bind'.
    { apply behaves_of_result. by intros e ->%getitem_inl. }
    intros raw_credit. apply behaves_bind'.
    { apply behaves_of_result, astype_float_supported. }
    intros credit. apply canonical_behaves.
    - intros x (y & Hy & _ & Hxy)%(getitem_setitem_ne _ _ "Description"); [|done].
      exists y. split; [done|]. unfold description_of. by rewrite Hxy.
    - apply behaves_of_result. by intros e ->%getitem_inl. }
  apply behaves_raise. intros _. unfold labels. set_solver.
Qed.
End Normalization.

(** ** The orchestrator *)

Section Orchestrator.
Context `{Platform} `{Environment}.
Variable FILTER_KEYWORDS : list string.
Variable FEEDBACK_TAGS : gmap string value.

Local Abbreviation normalize := (Main.normalize FILTER_KEYWORDS FEEDBACK_TAGS).
Local Abbreviation process_csv := (Main.process_csv FILTER_KEYWORDS FEEDBACK_TAGS).
Local Abbreviation run_pipeline := (Main.run_pipeline FILTER_KEYWORDS FEEDBACK_TAGS).

Definition is_read (ev : event) : bool :=
  match ev with ReadCsv _ => true | _ => false end.

Definition quiet (ev : event) : Prop := is_read ev = false.

Lemma to_csv_behaves norm_file table : behaves quiet supported (to_csv norm_file table).
Proof.
  intros t. unfold to_csv. exists [ToCsv norm_file table].
  destruct (write_outcome t norm_file); repeat split; try done; try (by repeat constructor).
  by intros e' [= <-].
Qed.

Lemma rename_behaves f : behaves quiet supported (rename f).
Proof.
  intros t. unfold rename. exists [Rename f].
  destruct (rename_outcome t f); repeat split; try done; try (by repeat constructor).
  by intros e' [= <-].
Qed.

Lemma process_csv_unknown f t df :
  csv_contents t f = inr df → Main.detect_format df = "unknown" →
  process_csv f t = (inr tt, t ++ [ReadCsv f; Print (MsgUnknownFormat (name f))]).
Proof.
  intros Hdf Hfmt. unfold Main.process_csv, read_csv. run.
  rewrite Hdf, Hfmt. simpl. by rewrite <-app_assoc.
Qed.

(** What remains of [process_csv] once the file is read. *)
Definition after_read (f : file) (df : DataFrame) : M unit :=
  let source := Main.detect_format df in
  if String.eqb source "unknown" then print (MsgUnknownFormat (name f))
  else
    norm_df ← normalize df source;
    let norm_file := stem f +:+ "_normalized.csv" in
    to_csv norm_file (snd <$> norm_df);;
    rename f;;
    print (MsgProcessed (name f) norm_file).

Lemma process_csv_read f t :
  process_csv f t =
    match csv_contents t f with
    | inl e => (inl (IOError e), t ++ [ReadCsv f])
    | inr df => after_read f df (t ++ [ReadCsv f])
    end.
Proof.
  unfold Main.process_csv, read_csv, after_read.
  unfold mbind at 1. unfold M_bind at 1. cbv beta.
  by destruct (csv_contents t f).
Qed.

Lemma after_read_behaves f df : behaves quiet supported (after_read f df).
Proof.
  unfold after_read. simpl.
  destruct (String.eqb_spec (Main.detect_format df) "unknown") as [Heq|Hne].
  { by apply behaves_emit. }
  apply behaves_bind'.
  { eapply behaves_weaken; [| |apply normalize_behaves].
    - by intros ev (x & _ & [-> | ->]).
    - intros e He. unfold supported. destruct (is_unsupported e) eqn:Hu; [|done].
      exfalso. apply He; [done|].
      pose proof (detect_format_range df) as Hr. unfold labels. set_solver. }
  intros norm_df. apply behaves_bind'; [apply to_csv_behaves|]. intros _.
  apply behaves_bind'; [apply rename_behaves|]. intros _.
  by apply behaves_emit.
Qed.

Lemma process_csv_run f t :
  ∃ evs, (process_csv f t).2 = t ++ ReadCsv f :: evs ∧ Forall quiet evs
         ∧ ∀ e, (process_csv f t).1 = inl e → supported e.
Proof.
  rewrite process_csv_read. destruct (csv_contents t f) as [e|df].
  - exists []. simpl. repeat split; [done|]. by intros e' [= <-].
  - destruct (after_read_behaves f df (t ++ [ReadCsv f])) as (evs & Ht & Hq & He).
    exists evs. rewrite <-app_assoc in Ht. done.
Qed.

Lemma run_pipeline_step f rest t :
  run_pipeline (f :: rest) t =
    run_pipeline rest
      match process_csv f t with
      | (inr _, t1) => t1
      | (inl e, t1) => t1 ++ [Print (MsgFailed (name f) e)]
      end.
Proof. simpl. run. by destruct (Main.process_csv _ _ f t) as [[e|[]] t1]. Qed.



(** C10: the "Unsupported CSV format" branch of [normalize] is dead code
    under [process_csv].  [detect_format] has five possible results;
    [process_csv] stops at ["unknown"] without calling [normalize]; for
    each of the other four [normalize] raises no such error; so
    [process_csv] never does. *)
Theorem unsupported_format_unreachable (f : file) (t : trace) :
  (∀ df, Main.detect_format df ∈ ["amex"; "chase"; "bilt"; "capone"; "unknown"])
  ∧ (∀ df, csv_contents t f = inr df → Main.detect_format df = "unknown" →
       process_csv f t = (inr tt, t ++ [ReadCsv f; Print (MsgUnknownFormat (name f))]))
  ∧ (∀ df source t0 e, source ∈ ["amex"; "chase"; "bilt"; "capone"] →
       (normalize df source t0).1 = inl e → is_unsupported e = false)
  ∧ (∀ e, (process_csv f t).1 = inl e → is_unsupported e = false).
Proof.
  split; [apply detect_format_range|].
  split; [intros df; apply process_csv_unknown|].
  split.
  - intros df source t0 e Hsrc He.
    destruct (normalize_behaves FILTER_KEYWORDS FEEDBACK_TAGS df source t0)
      as (evs & _ & _ & Hq).
    destruct (is_unsupported e) eqn:Hu; [|done]. by destruct (Hq e He Hu).
  - destruct (process_csv_run f t) as (evs & _ & _ & He). apply He.
Qed.
End Orchestrator.

(** ** Normalization: the rows that come out *)

Lemma frame_columns (dates : Series timestamp) (descriptions : Series value)
    (amounts : Series cell) (categories : Series value) (label : string) :
  length descriptions = length dates → length amounts = length dates →
  length categories = length dates →
  let out := Main.frame dates descriptions amounts categories label in
  out.*1 = dates.*1
  ∧ (λ o, description o.2) <$> out = descriptions.*2
  ∧ (λ o, amount o.2) <$> out = amounts.*2
  ∧ (λ o, category o.2) <$> out = categories.*2
  ∧ Forall (λ o, source o.2 = label) out.
Proof.
  unfold Main.frame. revert descriptions amounts categories.
  induction dates as [|d dates IH]; intros [|x xs] [|a az] [|c cs]; try done.
  intros [= Hx] [= Ha] [= Hc]. destruct (IH xs az cs Hx Ha Hc) as (I1 & I2 & I3 & I4 & I5).
  csimpl. repeat split; try (f_equal; done). by constructor.
Qed.

Section Rows.
Context `{Platform} `{Environment}.
Variable FILTER_KEYWORDS : list string.
Variable FEEDBACK_TAGS : gmap string value.

Local Abbreviation normalize := (Main.normalize FILTER_KEYWORDS FEEDBACK_TAGS).
Local Abbreviation kept := (kept FILTER_KEYWORDS).

Lemma canonical_inr df date_column amounts label t out t' :
  Main.canonical FEEDBACK_TAGS df date_column amounts label t = (inr out, t') →
  ∃ amts t1 t2, amounts t1 = (inr amts, t2)
    ∧ (length amts = length (rows df) →
       out.*1 = (rows df).*1 ∧ (λ o, amount o.2) <$> out = amts.*2).
Proof.
  intros Hrun. unfold Main.canonical in Hrun. run_in Hrun.
  destruct (getitem df date_column) as [e|raw_dates] eqn:Hraw; [done|]. simpl in Hrun.
  destruct (Main.parse_dates raw_dates) as [e|dates] eqn:Hdates; [done|].
  simpl in Hrun.
  destruct (getitem df "Description") as [e|raw] eqn:Hdesc; [done|]. simpl in Hrun.
  destruct (apply Main.enrich_merchant raw t) as [[e|descs] t1] eqn:Hdescs; [done|].
  destruct (amounts t1) as [[e|amts] t2] eqn:Hamts; [done|].
  destruct (apply (Main.get_category FEEDBACK_TAGS) raw t2) as [[e|cats] t3] eqn:Hcats;
    [done|].
  injection Hrun as <- <-. exists amts, t1, t2. split; [done|]. intros Hlen.
  apply parse_dates_inr in Hdates as [Hdates _]. apply getitem_fst in Hraw, Hdesc.
  apply apply_fst in Hdescs, Hcats.
  assert (dates.*1 = (rows df).*1) as Hidx by congruence.
  assert (length dates = length (rows df)) as Hn.
  { apply (f_equal length) in Hidx. by rewrite !length_fmap in Hidx. }
  assert (length raw = length (rows df)) as Hraw_n.
  { apply (f_equal length) in Hdesc. by rewrite !length_fmap in Hdesc. }
  destruct (frame_columns dates descs amts cats label) as (F1 & _ & F3 & _).
  - apply (f_equal length) in Hdescs. rewrite !length_fmap in Hdescs. congruence.
  - congruence.
  - apply (f_equal length) in Hcats. rewrite !length_fmap in Hcats. congruence.
  - split; [congruence | done].
Qed.

Definition cell_of (c : string) (r : gmap string cell) : cell := default missing (r !! c).

(** The column [c] of a frame that has one. *)
Definition column_of (df : DataFrame) (c : string) : Series cell :=
  prod_map id (cell_of c) <$> rows df.

Lemma getitem_column df c s : getitem df c = inr s → s = column_of df c.
Proof. apply getitem_inr. Qed.

Lemma column_of_fst df c : (column_of df c).*1 = (rows df).*1.
Proof.
  unfold column_of. rewrite <-list_fmap_compose. by apply list_fmap_ext; intros [].
Qed.

Lemma as_cells_snd (s : Series float) : (Main.as_cells s).*2 = CNum <$> s.*2.
Proof.
  unfold Main.as_cells. rewrite <-!list_fmap_compose. by apply list_fmap_ext; intros [].
Qed.

Lemma fmap_fst_length {A B} (l : list (nat * A)) (k : list (nat * B)) :
  l.*1 = k.*1 → length l = length k.
Proof. intros Hlk. apply (f_equal length) in Hlk. by rewrite !length_fmap in Hlk. Qed.

(** How each branch derives the amounts of the rows it kept. *)
Definition amounts_derived (source : string) (df : DataFrame) (floats : Series float) : Prop :=
  ((source = "amex" ∨ source = "bilt")
   ∧ convert Main.astype_float (column_of df "Amount") = inr floats)
  ∨ (source = "chase" ∧ convert Main.chase_amount (column_of df "Amount") = inr floats)
  ∨ (source = "capone" ∧ ∃ debit credit,
       convert Main.astype_float (prod_map id Main.fillna_0 <$> column_of df "Debit")
         = inr debit
       ∧ convert Main.astype_float (prod_map id Main.fillna_0 <$> column_of df "Credit")
         = inr credit
       ∧ floats = zip_with (λ d c, (d.1, (d.2 - c.2)%float)) debit credit).

Lemma plain_amount_inr df t amts t' :
  (raw ← of_result (getitem df "Amount");
   floats ← of_result (convert Main.astype_float raw);
   mret (Main.as_cells floats)) t = (inr amts, t') →
  ∃ floats, convert Main.astype_float (column_of df "Amount") = inr floats
            ∧ amts = Main.as_cells floats.
Proof.
  intros Hrun. run_in Hrun.
  destruct (getitem df "Amount") as [e|raw] eqn:Hraw; [done|].
  apply getitem_column in Hraw as ->. simpl in Hrun.
  destruct (convert Main.astype_float _) as [e|floats]; [done|].
  injection Hrun as <- _. by exists floats.
Qed.

Lemma normalize_inr df source t out t' :
  normalize df source t = (inr out, t') →
  out.*1 = (rows (kept df)).*1
  ∧ ∃ floats, (λ o, amount o.2) <$> out = CNum <$> floats.*2
              ∧ floats.*1 = (rows (kept df)).*1
              ∧ amounts_derived source (kept df) floats.
Proof.
  intros Hrun. unfold Main.normalize in Hrun.
  unfold mbind at 1 in Hrun. unfold M_bind at 1 in Hrun.
  destruct (of_result (getitem df "Description") t) as [[e|s0] t0]; [done|].
  change (getitem_apply _ df) with (kept df) in Hrun.
  destruct (String.eqb_spec source "amex") as [->|Hamex];
    [|destruct (String.eqb_spec source "chase") as [->|Hchase];
      [|destruct (String.eqb_spec source "bilt") as [->|Hbilt];
        [|destruct (String.eqb_spec source "capone") as [->|Hcapone];
          [|by unfold raise in Hrun]]]].
  - apply canonical_inr in Hrun as (amts & t1 & t2 & Hamts & Hout).
    apply plain_amount_inr in Hamts as (floats & Hfloats & ->).
    pose proof (convert_fst _ _ _ Hfloats) as Hidx. rewrite column_of_fst in Hidx.
    destruct Hout as [Hout1 Hout2].
    { apply fmap_fst_length. by rewrite as_cells_fst. }
    split; [done|]. exists floats. rewrite Hout2, as_cells_snd.
    repeat split; [done|]. left. eauto.
  - run_in Hrun.
    destruct (getitem (kept df) "Amount") as [e|raw] eqn:Hraw; [done|].
    apply getitem_column in Hraw as ->. simpl in Hrun.
    destruct (convert Main.chase_amount _) as [e|floats] eqn:Hfloats; [done|].
    pose proof (convert_fst _ _ _ Hfloats) as Hidx. rewrite column_of_fst in Hidx.
    assert ((Main.as_cells floats).*1 = (rows (kept df)).*1) as Hcells
      by by rewrite as_cells_fst.
    apply canonical_inr in Hrun as (amts & t1 & t2 & Hamts & Hout).
    run_in Hamts. rewrite (getitem_setitem _ _ _ Hcells) in Hamts.
    injection Hamts as <- _.
    destruct Hout as [Hout1 Hout2].
    { apply fmap_fst_length. by rewrite setitem_fst. }
    rewrite setitem_fst in Hout1 by done.
    split; [done|]. exists floats. rewrite Hout2, as_cells_snd.
    repeat split; [done|]. right. left. eauto.
  - apply canonical_inr in Hrun as (amts & t1 & t2 & Hamts & Hout).
    apply plain_amount_inr in Hamts as (floats & Hfloats & ->).
    pose proof (convert_fst _ _ _ Hfloats) as Hidx. rewrite column_of_fst in Hidx.
    destruct Hout as [Hout1 Hout2].
    { apply fmap_fst_length. by rewrite as_cells_fst. }
    split; [done|]. exists floats. rewrite Hout2, as_cells_snd.
    repeat split; [done|]. left. eauto.
  - run_in Hrun.
    destruct (getitem (kept df) "Debit") as [e|raw_debit] eqn:Hraw_debit; [done|].
    apply getitem_column in Hraw_debit as ->. simpl in Hrun.
    destruct (convert Main.astype_float _) as [e|debit] eqn:Hdebit; [done|].
    simpl in Hrun.
    destruct (getitem (kept df) "Credit") as [e|raw_credit] eqn:Hraw_credit; [done|].
    apply getitem_column in Hraw_credit as ->. simpl in Hrun.
    destruct (convert Main.astype_float
                (prod_map id Main.fillna_0 <$> column_of (kept df) "Credit"))
      as [e|credit] eqn:Hcredit; [done|].
    simpl in Hrun.
    set (floats := zip_with (λ d c : nat * float, (d.1, (d.2 - c.2)%float)) debit credit)
      in Hrun.
    assert (floats.*1 = (rows (kept df)).*1) as Hidx.
    { apply convert_fst in Hdebit, Hcredit.
      rewrite <-list_fmap_compose in Hdebit, Hcredit.
      assert (debit.*1 = (rows (kept df)).*1) as Hd.
      { rewrite Hdebit, <-(column_of_fst (kept df) "Debit").
        by apply list_fmap_ext; intros []. }
      assert (credit.*1 = (rows (kept df)).*1) as Hc.
      { rewrite Hcredit, <-(column_of_fst (kept df) "Credit").
        by apply list_fmap_ext; intros []. }
      rewrite <-Hd. subst floats. clear -Hd Hc. rewrite <-Hc in Hd. clear Hc.
      revert credit Hd. induction debit as [|d debit IH]; intros [|c credit]; try done.
      intros [= _ Hd]. csimpl. f_equal. by apply IH. }
    assert ((Main.as_cells floats).*1 = (rows (kept df)).*1) as Hcells
      by by rewrite as_cells_fst.
    apply canonical_inr in Hrun as (amts & t1 & t2 & Hamts & Hout).
    run_in Hamts. rewrite (getitem_setitem _ _ _ Hcells) in Hamts.
    injection Hamts as <- _.
    destruct Hout as [Hout1 Hout2].
    { apply fmap_fst_length. by rewrite setitem_fst. }
    rewrite setitem_fst in Hout1 by done.
    split; [done|]. exists floats. rewrite Hout2, as_cells_snd.
    repeat split; [done|]. right. right. split; [done|]. by exists debit, credit.
Qed.
End Rows.

(** ** Exclusion and amounts *)

Lemma rows_out_Forall2 (rws : list (nat * gmap string cell)) (floats : Series float)
    (out : Series NormRow) (Q : gmap string cell → float → Prop) :
  Forall2 (λ r y, r.1 = y.1 ∧ Q r.2 y.2) rws floats →
  out.*1 = rws.*1 →
  (λ o, amount o.2) <$> out = CNum <$> floats.*2 →
  Forall2 (λ r o, r.1 = o.1 ∧ ∃ f, Q r.2 f ∧ amount o.2 = CNum f) rws out.
Proof.
  intros Hrows. revert out.
  induction Hrows as [|r y rws floats [Hry HQ] _ IH]; intros [|o out]; try done.
  intros [= Ho Hout] [= Ha Hamts]. constructor; [|by apply IH].
  split; [done|]. by exists y.2.
Qed.

Lemma zip_with_Forall2 {A} (P1 P2 : A → nat * float → Prop) (g : nat * float → nat * float → nat * float)
    (l : list A) (debit credit : Series float) :
  Forall2 P1 l debit → Forall2 P2 l credit →
  Forall2 (λ r y, ∃ d c, P1 r d ∧ P2 r c ∧ y = g d c) l (zip_with g debit credit).
Proof.
  intros Hd. revert credit.
  induction Hd as [|r d l debit Hrd _ IH]; intros credit Hc; inv Hc; [constructor|].
  csimpl. constructor; [eauto | by apply IH].
Qed.

Section Filtering.
Context `{Platform} `{Environment}.
Variable FILTER_KEYWORDS : list string.
Variable FEEDBACK_TAGS : gmap string value.

Local Abbreviation normalize := (Main.normalize FILTER_KEYWORDS FEEDBACK_TAGS).
Local Abbreviation should_exclude := (Main.should_exclude FILTER_KEYWORDS).
Local Abbreviation kept := (kept FILTER_KEYWORDS).

(** The description, lower-cased, has some keyword as a substring. *)
Definition excluded (description : cell) : Prop :=
  ∃ keyword, keyword ∈ FILTER_KEYWORDS
    ∧ ∃ before after, lower (cell_str description) = before +:+ keyword +:+ after.

Lemma should_exclude_spec (description : cell) :
  should_exclude description = true ↔ excluded description.
Proof.
  unfold Main.should_exclude, excluded. rewrite existsb_exists.
  split; intros (keyword & Hin & Hsub); exists keyword.
  - by rewrite <-contains_spec, list_elem_of_In.
  - by rewrite contains_spec, <-list_elem_of_In.
Qed.

Lemma kept_rows df :
  rows (kept df) = filter (λ r, should_exclude (description_of r.2) = false) (rows df).
Proof.
  unfold kept, getitem_apply. destruct (rows df) as [|r0 l] eqn:Hrows; [done|].
  simpl. rewrite Hrows. apply list_filter_iff. intros r. apply negb_true_iff.
Qed.

(** C5: when [normalize] succeeds, the rows that come out carry the labels
    of exactly the input rows that are not excluded, in their order; a row
    is excluded exactly when its description, as text and lower-cased,
    contains a keyword as a substring; and the requests made on the way
    concern kept rows only, so an excluded row is neither enriched nor
    categorized. *)
Theorem normalize_drops_excluded (df : DataFrame) (source : string) (t : trace)
    (out : Series NormRow) (t' : trace) :
  normalize df source t = (inr out, t') →
  out.*1 = (filter (λ r, should_exclude (description_of r.2) = false) (rows df)).*1
  ∧ (∀ description, should_exclude description = true ↔ excluded description)
  ∧ (∀ i r, (i, r) ∈ rows df → ¬ excluded (description_of r) → i ∈ out.*1)
  ∧ (NoDup (rows df).*1 →
     ∀ i r, (i, r) ∈ rows df → excluded (description_of r) → i ∉ out.*1)
  ∧ (∃ evs, t' = t ++ evs ∧ Forall (about (kept df)) evs).
Proof.
  intros Hrun. destruct (normalize_inr _ _ _ _ _ _ _ Hrun) as [Hidx _].
  rewrite kept_rows in Hidx.
  split; [done|]. split; [apply should_exclude_spec|].
  split; [|split].
  - intros i r Hin Hex. rewrite Hidx. apply list_elem_of_fmap.
    exists (i, r). split; [done|]. apply list_elem_of_filter. split; [|done].
    simpl. rewrite <-should_exclude_spec in Hex. by destruct (should_exclude _).
  - intros Hnodup i r Hin Hex. rewrite Hidx.
    intros ([j r'] & -> & [Hkeep Hin']%list_elem_of_filter)%list_elem_of_fmap.
    simpl in *. apply should_exclude_spec in Hex.
    assert (r' = r) as ->; [|congruence].
    apply list_elem_of_lookup in Hin as [k Hk], Hin' as [k' Hk'].
    assert (k = k') as ->; [|congruence].
    eapply NoDup_lookup; [done| |]; rewrite list_lookup_fmap.
    + by rewrite Hk.
    + by rewrite Hk'.
  - destruct (normalize_behaves FILTER_KEYWORDS FEEDBACK_TAGS df source t)
      as (evs & Ht & Hev & _).
    exists evs. by rewrite Hrun in Ht.
Qed.

(** [u] is [s] with every comma taken out and nothing else changed. *)
Definition without_commas (s u : string) : Prop :=
  String.list_ascii_of_string u
  = filter (λ a, a ≠ ","%char) (String.list_ascii_of_string s).

(** The number a Debit or a Credit cell counts for: zero when the cell is
    missing, the number it holds, or the text it holds read as a float. *)
Definition read_or_zero (c : cell) (f : float) : Prop :=
  match c with
  | CNum x => f = if is_nan x then 0%float else x
  | CStr s => float_of_str s = Some f
  end.

Lemma remove_commas_spec (s : string) : without_commas s (remove_commas s).
Proof.
  unfold without_commas. induction s as [|a s IH]; simpl; [done|].
  destruct (Ascii.eqb_spec a ","%char) as [->|Hne].
  - by rewrite filter_cons_False by (by intros ?).
  - rewrite filter_cons_True by done. simpl. by rewrite IH.
Qed.

Lemma fillna_0_spec (c : cell) (f : float) :
  Main.astype_float (Main.fillna_0 c) = inr f → read_or_zero c f.
Proof.
  destruct c as [s|x]; simpl.
  - destruct (float_of_str s); [by intros [= ->] | done].
  - destruct (is_nan x); simpl; by intros [= <-].
Qed.

(** C6: a Chase row gets the absolute value of its Amount, read as text
    with every comma taken out and parsed as a float, so that ["1,200.50"]
    gives 1200.5; a CapitalOne row gets Debit minus Credit, where a
    missing Debit or Credit counts for zero and any other is read as a
    float. *)
Theorem normalize_amount_rules (df : DataFrame) (t : trace) (out : Series NormRow)
    (t' : trace) :
  (normalize df "chase" t = (inr out, t') →
   Forall2
     (λ r o, r.1 = o.1 ∧ ∃ text parsed,
        without_commas (cell_str (cell_of "Amount" r.2)) text
        ∧ float_of_str text = Some parsed
        ∧ amount o.2 = CNum (abs parsed))
     (rows (kept df)) out)
  ∧ (normalize df "capone" t = (inr out, t') →
     Forall2
       (λ r o, r.1 = o.1 ∧ ∃ debit credit,
          read_or_zero (cell_of "Debit" r.2) debit
          ∧ read_or_zero (cell_of "Credit" r.2) credit
          ∧ amount o.2 = CNum (debit - credit))
       (rows (kept df)) out)
  ∧ Main.astype_float (Main.fillna_0 missing) = inr 0%float
  ∧ (float_of_str "1200.50" = Some 1200.5%float →
     Main.chase_amount (CStr "1,200.50") = inr 1200.5%float).
Proof.
  split; [|split; [|split]].
  - intros Hrun.
    destruct (normalize_inr _ _ _ _ _ _ _ Hrun)
      as (Hidx & floats & Hamts & _ & [[[?|?] _]|[[_ Hfloats]|[? _]]]); try done.
    eapply Forall2_impl.
    + apply (rows_out_Forall2 _ floats _
               (λ r f, ∃ text parsed,
                  without_commas (cell_str (cell_of "Amount" r)) text
                  ∧ float_of_str text = Some parsed ∧ f = abs parsed)); [|done..].
      apply convert_inr in Hfloats. unfold column_of in Hfloats.
      apply Forall2_fmap_l in Hfloats. eapply Forall2_impl; [exact Hfloats|].
      intros [i r] y [Hi Hf]. simpl in *. split; [done|].
      unfold Main.chase_amount in Hf. fold (cell_of "Amount" r) in Hf.
      destruct (float_of_str _) as [parsed|] eqn:Hparsed; [|done].
      exists (remove_commas (cell_str (cell_of "Amount" r))), parsed.
      split; [apply remove_commas_spec|]. split; [done | by simplify_eq].
    + intros r o (Hi & f & (text & parsed & Ht & Hp & ->) & Ha). split; [done|].
      by exists text, parsed.
  - intros Hrun.
    destruct (normalize_inr _ _ _ _ _ _ _ Hrun)
      as (Hidx & floats & Hamts & _ & [[[?|?] _]|[[? _]|[_ Hfloats]]]); try done.
    destruct Hfloats as (debit & credit & Hdebit & Hcredit & ->).
    eapply Forall2_impl.
    + apply (rows_out_Forall2 _
               (zip_with (λ d c : nat * float, (d.1, (d.2 - c.2)%float)) debit credit) _
               (λ r f, ∃ debit credit,
                  read_or_zero (cell_of "Debit" r) debit
                  ∧ read_or_zero (cell_of "Credit" r) credit
                  ∧ f = (debit - credit)%float)); [|done..].
      apply convert_inr in Hdebit, Hcredit. unfold column_of in Hdebit, Hcredit.
      rewrite !Forall2_fmap_l in Hdebit. rewrite !Forall2_fmap_l in Hcredit.
      eapply Forall2_impl; [exact (zip_with_Forall2 _ _ _ _ _ _ Hdebit Hcredit)|].
      intros [i r] y (d & c & [Hid Hd] & [Hic Hc] & ->). simpl in *.
      split; [done|]. exists d.2, c.2. by split; [|split]; try apply fillna_0_spec.
    + intros r o (Hi & f & (d & c & Hd & Hc & ->) & Ha). split; [done|].
      by exists d, c.
  - done.
  - intros Hparse. unfold Main.chase_amount. simpl. by rewrite Hparse.
Qed.
End Filtering.

(** ** The deduplicating persister *)

Section Persistence.
Context {V : Type} `{EqDecision V}.
Variable outflow : V.
Variable acceptable_row : V * V * V * V * V * V * V → bool.
Variable connect : option DbLoader.connect_error.

Local Abbreviation StoredRow := (@DbLoader.StoredRow V).
Local Abbreviation dedup_key := (@DbLoader.dedup_key V).
Local Abbreviation visible := (@DbLoader.visible V).
Local Abbreviation execute := (DbLoader.execute acceptable_row).
Local Abbreviation insert_row := (DbLoader.insert_row outflow acceptable_row).
Local Abbreviation parameters := (DbLoader.parameters outflow).
Local Abbreviation insert_dataframe := (DbLoader.insert_dataframe outflow acceptable_row connect).

Definition keys (l : list StoredRow) : list (V * V * V * V * V) := dedup_key <$> l.

(** A row the statement goes through for: every column is there and the
    store accepts the values. *)
Definition storable (row : gmap string V) (r : StoredRow) : Prop :=
  parameters row = inr r ∧ acceptable_row (DbLoader.columns_of r) = true.

Lemma execute_spec (r : StoredRow) (s : @DbLoader.session V) :
  let s' := (execute r s).2 in
  DbLoader.committed s' = DbLoader.committed s
  ∧ (NoDup (keys (visible s)) → NoDup (keys (visible s')))
  ∧ (DbLoader.failed s = true → DbLoader.failed s' = true)
  ∧ (∀ k, k ∈ keys (visible s) → k ∈ keys (visible s'))
  ∧ (DbLoader.failed s' = false →
     acceptable_row (DbLoader.columns_of r) = true ∧ dedup_key r ∈ keys (visible s')).
Proof.
  unfold DbLoader.execute, keys.
  destruct (DbLoader.failed s) eqn:Hfailed; [by simpl; rewrite Hfailed|].
  destruct (acceptable_row _) eqn:Hok; simpl; [|done].
  case_bool_decide as Hin; simpl; [by rewrite Hfailed|].
  assert (∀ l : list StoredRow, dedup_key <$> (l ++ [r]) = (dedup_key <$> l) ++ [dedup_key r])
    as Hsnoc by (intros l; by rewrite fmap_app).
  unfold DbLoader.visible in *. simpl. rewrite app_assoc, Hsnoc.
  repeat split; try done.
  - intros Hnd. apply NoDup_app. repeat split; [done| |apply NoDup_singleton].
    intros k Hk ->%list_elem_of_singleton. done.
  - intros k Hk. apply elem_of_app. by left.
  - apply elem_of_app. right. by left.
Qed.

Lemma insert_row_spec (acc : @DbLoader.session V * list (@DbLoader.report V))
    (row : gmap string V) :
  let acc' := insert_row acc row in
  DbLoader.committed acc'.1 = DbLoader.committed acc.1
  ∧ (NoDup (keys (visible acc.1)) → NoDup (keys (visible acc'.1)))
  ∧ (DbLoader.failed acc.1 = true → DbLoader.failed acc'.1 = true)
  ∧ (∀ k, k ∈ keys (visible acc.1) → k ∈ keys (visible acc'.1))
  ∧ (DbLoader.failed acc'.1 = false → ∀ r, parameters row = inr r →
     acceptable_row (DbLoader.columns_of r) = true ∧ dedup_key r ∈ keys (visible acc'.1)).
Proof.
  unfold DbLoader.insert_row.
  destruct (parameters row) as [e|r]; simpl; [naive_solver|].
  pose proof (execute_spec r acc.1) as (E1 & E2 & E3 & E4 & E5).
  destruct (execute r acc.1) as [[e|] s]; simpl in *.
  all: split; [exact E1|]; split; [exact E2|]; split; [exact E3|]; split; [exact E4|].
  all: intros Hf r' [= <-]; by apply E5.
Qed.

Lemma foldl_insert_row_spec (df : list (gmap string V))
    (acc : @DbLoader.session V * list (@DbLoader.report V)) :
  let acc' := foldl insert_row acc df in
  DbLoader.committed acc'.1 = DbLoader.committed acc.1
  ∧ (NoDup (keys (visible acc.1)) → NoDup (keys (visible acc'.1)))
  ∧ (DbLoader.failed acc.1 = true → DbLoader.failed acc'.1 = true)
  ∧ (∀ k, k ∈ keys (visible acc.1) → k ∈ keys (visible acc'.1))
  ∧ (DbLoader.failed acc'.1 = false → ∀ row r, row ∈ df → parameters row = inr r →
     acceptable_row (DbLoader.columns_of r) = true ∧ dedup_key r ∈ keys (visible acc'.1)).
Proof.
  revert acc. induction df as [|row df IH]; intros acc; simpl.
  { do 4 (split; [done|]). intros _ ? ? Hin. by apply elem_of_nil in Hin. }
  pose proof (insert_row_spec acc row) as (S1 & S2 & S3 & S4 & S5).
  destruct (IH (insert_row acc row)) as (I1 & I2 & I3 & I4 & I5).
  split; [congruence|]. split; [auto|]. split; [auto|]. split; [auto|].
  intros Hf row' r [->|Hin]%elem_of_cons Hr.
  - destruct (DbLoader.failed (insert_row acc row).1) eqn:Hmid.
    + rewrite I3 in Hf; done.
    + destruct (S5 eq_refl r Hr) as [Hok Hkey]. auto.
  - by apply (I5 Hf row').
Qed.


Lemma foldl_insert_row_storable (df : list (gmap string V))
    (acc : @DbLoader.session V * list (@DbLoader.report V)) :
  DbLoader.failed acc.1 = false →
  (∀ row, row ∈ df → ∃ r, storable row r) →
  DbLoader.failed (foldl insert_row acc df).1 = false.
Proof.
  revert acc. induction df as [|row df IH]; intros acc Hacc Hall; [done|].
  simpl. apply IH; [|intros row' Hin; apply Hall; by right].
  destruct (Hall row) as (r & Hr & Hok); [by left|].
  unfold DbLoader.insert_row. rewrite Hr. unfold DbLoader.execute.
  rewrite Hacc, Hok. simpl. by case_bool_decide.
Qed.



Definition tagged (file_name : V) (df : list (gmap string V)) : list (gmap string V) :=
  (λ row, <["filename" := file_name]> row) <$> df.

Lemma insert_dataframe_run (df : list (gmap string V)) (file_name : V) (store : list StoredRow) :
  insert_dataframe df file_name store =
    match connect with
    | Some e => (inl e, store, [])
    | None =>
        let acc := foldl insert_row (DbLoader.begin store, []) (tagged file_name df) in
        (inr tt, DbLoader.commit acc.1, acc.2 ++ [DbLoader.InsertedRowsFrom file_name])
    end.
Proof.
  unfold DbLoader.insert_dataframe, tagged. destruct connect; [done|].
  by destruct (foldl _ _ _).
Qed.

Lemma visible_begin (store : list StoredRow) : visible (DbLoader.begin store) = store.
Proof. unfold DbLoader.visible. simpl. apply app_nil_r. Qed.

(** The row [insert_dataframe] sends to the store for a row of the frame:
    its columns read by name, the direction or its default, and the file
    name of the call. *)
Definition sent (file_name : V) (row : gmap string V) (r : StoredRow) : Prop :=
  row !! "date" = Some (DbLoader.date r)
  ∧ row !! "description" = Some (DbLoader.description r)
  ∧ row !! "amount" = Some (DbLoader.amount r)
  ∧ row !! "category" = Some (DbLoader.category r)
  ∧ DbLoader.direction r = default outflow (row !! "direction")
  ∧ row !! "source" = Some (DbLoader.source r)
  ∧ DbLoader.filename r = file_name.

(** The columns a row must have, in the order the statement reads them. *)
Definition required : list string := ["date"; "description"; "amount"; "category"; "source"].

(** [c] is the first required column that the row lacks. *)
Definition first_missing (row : gmap string V) (c : string) : Prop :=
  ∃ before after, required = before ++ c :: after ∧ row !! c = None
    ∧ ∀ c', c' ∈ before → is_Some (row !! c').

Lemma parameters_sent (file_name : V) (row : gmap string V) (r : StoredRow) :
  parameters (<["filename" := file_name]> row) = inr r ↔ sent file_name row r.
Proof.
  unfold DbLoader.parameters, DbLoader.column, sent.
  rewrite lookup_insert_eq, !lookup_insert_ne by done.
  destruct r as [d x a c dir src fn]. simpl. split.
  - destruct (row !! "date"); [|done]. destruct (row !! "description"); [|done].
    destruct (row !! "amount"); [|done]. destruct (row !! "category"); [|done].
    destruct (row !! "source"); [|done]. by intros [= -> -> -> -> -> -> ->].
  - by intros (-> & -> & -> & -> & -> & -> & ->).
Qed.

Lemma parameters_missing (file_name : V) (row : gmap string V) (e : DbLoader.insert_error) :
  parameters (<["filename" := file_name]> row) = inl e →
  ∃ c, e = DbLoader.MissingColumn c ∧ first_missing row c.
Proof.
  unfold DbLoader.parameters, DbLoader.column, first_missing, required.
  rewrite lookup_insert_eq, !lookup_insert_ne by done.
  destruct (row !! "date") eqn:H1.
  2:{ intros [= <-]. exists "date". split; [done|]. eexists [], _.
      repeat split; [done|]. by intros c' ?%elem_of_nil. }
  destruct (row !! "description") eqn:H2.
  2:{ intros [= <-]. exists "description". split; [done|]. eexists ["date"], _.
      repeat split; [done|]. intros c'. rewrite !elem_of_cons, elem_of_nil.
      intros [->|[]]; by eexists. }
  destruct (row !! "amount") eqn:H3.
  2:{ intros [= <-]. exists "amount". split; [done|]. eexists ["date"; "description"], _.
      repeat split; [done|]. intros c'. rewrite !elem_of_cons, elem_of_nil.
      intros [->|[->|[]]]; by eexists. }
  destruct (row !! "category") eqn:H4.
  2:{ intros [= <-]. exists "category". split; [done|].
      eexists ["date"; "description"; "amount"], _.
      repeat split; [done|]. intros c'. rewrite !elem_of_cons, elem_of_nil.
      intros [->|[->|[->|[]]]]; by eexists. }
  destruct (row !! "source") eqn:H5; [done|].
  intros [= <-]. exists "source". split; [done|].
  eexists ["date"; "description"; "amount"; "category"], _.
  repeat split; [done|]. intros c'. rewrite !elem_of_cons, elem_of_nil.
  intros [->|[->|[->|[->|[]]]]]; by eexists.
Qed.

Lemma sent_functional (file_name : V) (row : gmap string V) (r r' : StoredRow) :
  sent file_name row r → sent file_name row r' → r = r'.
Proof. rewrite <-!parameters_sent. congruence. Qed.

Lemma sent_required (file_name : V) (row : gmap string V) (r : StoredRow) (c : string) :
  sent file_name row r → c ∈ required → is_Some (row !! c).
Proof.
  intros (H1 & H2 & H3 & H4 & _ & H5 & _). unfold required.
  rewrite !elem_of_cons, elem_of_nil. intros [->|[->|[->|[->|[->|[]]]]]]; by eexists.
Qed.

Lemma first_missing_not_sent (file_name : V) (row : gmap string V) (r : StoredRow) (c : string) :
  first_missing row c → ¬ sent file_name row r.
Proof.
  intros (before & after & Hreq & Hnone & _) Hsent.
  destruct (sent_required _ _ _ c Hsent) as [v Hv]; [|congruence].
  rewrite Hreq. apply elem_of_app. right. by left.
Qed.

Lemma first_missing_functional (row : gmap string V) (c c' : string) :
  first_missing row c → first_missing row c' → c = c'.
Proof.
  intros (b1 & a1 & Hr1 & Hn1 & Hb1) (b2 & a2 & Hr2 & Hn2 & Hb2).
  assert (∀ (b b' a a' : list string) (x x' : string),
            b ++ x :: a = b' ++ x' :: a' → x = x' ∨ x ∈ b' ∨ x' ∈ b) as Hsplit.
  { induction b as [|y b IH]; intros [|y' b'] a a' x x'; simpl; intros [= ? Heq].
    - by left.
    - right. left. subst. by left.
    - right. right. subst. by left.
    - destruct (IH b' a a' x x' Heq) as [?|[?|?]]; [by left | |].
      + right. left. by right.
      + right. right. by right. }
  destruct (Hsplit b1 b2 a1 a2 c c') as [?|[Hin|Hin]]; [congruence | done | |].
  - destruct (Hb2 _ Hin) as [v Hv]. congruence.
  - destruct (Hb1 _ Hin) as [v Hv]. congruence.
Qed.

(** The lines a call prints about the rows of a frame, one for each row
    whose insert raises: a row that lacks a required column, a row the
    store rejects, and every complete row after a rejected one, the
    transaction being aborted from there on ([failed]).  Complete rows
    that the store accepts, new or already there, give no line. *)
Inductive reported (file_name : V) :
    bool → list (gmap string V) → list DbLoader.insert_error → Prop :=
| reported_nil failed : reported file_name failed [] []
| reported_missing failed row c rest errors :
    first_missing row c →
    reported file_name failed rest errors →
    reported file_name failed (row :: rest) (DbLoader.MissingColumn c :: errors)
| reported_aborted row r rest errors :
    sent file_name row r →
    reported file_name true rest errors →
    reported file_name true (row :: rest) (DbLoader.InFailedSqlTransaction :: errors)
| reported_rejected row r rest errors :
    sent file_name row r →
    acceptable_row (DbLoader.columns_of r) = false →
    reported file_name true rest errors →
    reported file_name false (row :: rest) (DbLoader.Rejected :: errors)
| reported_accepted row r rest errors :
    sent file_name row r →
    acceptable_row (DbLoader.columns_of r) = true →
    reported file_name false rest errors →
    reported file_name false (row :: rest) errors.

Lemma reported_functional (file_name : V) (failed : bool) (df : list (gmap string V))
    (errors errors' : list DbLoader.insert_error) :
  reported file_name failed df errors → reported file_name failed df errors' →
  errors = errors'.
Proof.
  intros Hrep. revert errors'.
  induction Hrep as [failed|failed row c rest errors Hc _ IH|row r rest errors Hr _ IH
                     |row r rest errors Hr Hbad _ IH|row r rest errors Hr Hok _ IH];
    intros errors' Hrep'; inv Hrep'; try done.
  all: try (exfalso; eapply first_missing_not_sent; done).
  all: try match goal with
    | H1 : sent _ ?row ?r, H2 : sent _ ?row ?r' |- _ =>
        pose proof (sent_functional _ _ _ _ H1 H2); subst
    end.
  all: try congruence.
  - f_equal; [|by apply IH]. f_equal. by eapply first_missing_functional.
  - f_equal. by apply IH.
  - f_equal. by apply IH.
  - by apply IH.
Qed.

Lemma foldl_insert_row_reported (file_name : V) (df : list (gmap string V))
    (acc : @DbLoader.session V * list (@DbLoader.report V)) :
  ∃ errors, reported file_name (DbLoader.failed acc.1) df errors
    ∧ (foldl insert_row acc (tagged file_name df)).2
      = acc.2 ++ (DbLoader.InsertError <$> errors).
Proof.
  revert acc. induction df as [|row df IH]; intros acc.
  { exists []. split; [constructor | by rewrite app_nil_r]. }
  csimpl. unfold DbLoader.insert_row at 2.
  destruct (parameters (<["filename" := file_name]> row)) as [e|r] eqn:Hrow.
  - apply parameters_missing in Hrow as (c & -> & Hc).
    destruct (IH (acc.1, acc.2 ++ [DbLoader.InsertError (DbLoader.MissingColumn c)]))
      as (errors & Hrep & ->).
    exists (DbLoader.MissingColumn c :: errors).
    split; [by constructor|]. csimpl. by rewrite <-app_assoc.
  - apply parameters_sent in Hrow. unfold DbLoader.execute.
    destruct (DbLoader.failed acc.1) eqn:Hfailed.
    { destruct (IH (acc.1, acc.2 ++ [DbLoader.InsertError DbLoader.InFailedSqlTransaction]))
        as (errors & Hrep & ->).
      exists (DbLoader.InFailedSqlTransaction :: errors). simpl in Hrep.
      rewrite Hfailed in Hrep.
      split; [by econstructor|]. csimpl. by rewrite <-app_assoc. }
    destruct (acceptable_row (DbLoader.columns_of r)) eqn:Hok; simpl.
    + case_bool_decide.
      * destruct (IH (acc.1, acc.2)) as (errors & Hrep & ->). simpl in Hrep.
        rewrite Hfailed in Hrep. exists errors. split; [by econstructor | done].
      * destruct (IH ({| DbLoader.committed := DbLoader.committed acc.1;
                         DbLoader.pending := DbLoader.pending acc.1 ++ [r];
                         DbLoader.failed := false |}, acc.2)) as (errors & Hrep & ->).
        exists errors. split; [by econstructor | done].
    + destruct (IH ({| DbLoader.committed := DbLoader.committed acc.1;
                       DbLoader.pending := DbLoader.pending acc.1;
                       DbLoader.failed := true |},
                    acc.2 ++ [DbLoader.InsertError DbLoader.Rejected]))
        as (errors & Hrep & ->).
      exists (DbLoader.Rejected :: errors).
      split; [by econstructor|]. csimpl. by rewrite <-app_assoc.
Qed.



(** C9, as the code has it: when the connection opens, [insert_dataframe]
    returns [None] and prints one line for each row whose insert raised,
    in the order of the rows, followed by a single closing line that names
    the file; no line carries a number of rows.  The lines depend on the
    rows of the frame alone, not on what the store held.  When every
    row goes through, the closing line is all it prints, however many
    rows were new. *)
Theorem insert_dataframe_report (df : list (gmap string V)) (file_name : V)
    (store : list StoredRow) :
  connect = None →
  (insert_dataframe df file_name store).1.1 = inr tt
  ∧ (∃ errors,
       reported file_name false df errors
       ∧ (∀ errors', reported file_name false df errors' → errors' = errors)
       ∧ (insert_dataframe df file_name store).2 =
           (DbLoader.InsertError <$> errors) ++ [DbLoader.InsertedRowsFrom file_name])
  ∧ ((∀ row, row ∈ df →
        ∃ r, sent file_name row r ∧ acceptable_row (DbLoader.columns_of r) = true) →
     (insert_dataframe df file_name store).2 = [DbLoader.InsertedRowsFrom file_name]).
Proof.
  intros Hconnect. rewrite insert_dataframe_run, Hconnect. simpl.
  split; [done|].
  destruct (foldl_insert_row_reported file_name df (DbLoader.begin store, []))
    as (errors & Hrep & Hprinted).
  simpl in Hrep, Hprinted. rewrite Hprinted.
  split.
  - exists errors. split; [done|]. split; [|done].
    intros errors' Hrep'. by eapply reported_functional.
  - intros Hall.
    assert (reported file_name false df []) as Hnone.
    { clear -Hall. induction df as [|row df IH]; [constructor|].
      destruct (Hall row) as (r & Hsent & Hok); [by left|].
      econstructor; [done..|]. apply IH. intros row' Hin. apply Hall. by right. }
    by rewrite (reported_functional _ _ _ _ _ Hrep Hnone).
Qed.
End Persistence.

(** * Sample runs *)

Section Samples.
#[local] Existing Instance Stub.platform.

Definition capone_file : DataFrame :=
  Stub.table
    ["Transaction Date"; "Posted Date"; "Card No."; "Description"; "Category"; "Debit"; "Credit"]
    [ [CStr "2024-01-05"; CStr "2024-01-06"; CNum 1234; CStr "Uber Trip"; CStr "Other";
       CNum 15; CNum nan];
      [CStr "2024-01-07"; CStr "2024-01-08"; CNum 1234; CStr "Payment Thank You";
       CStr "Payment"; CNum nan; CNum 100] ].

Definition chase_file : DataFrame :=
  Stub.table
    ["Transaction Date"; "Post Date"; "Description"; "Category"; "Type"; "Amount"; "Memo"]
    [ [CStr "2024-02-01"; CStr "2024-02-02"; CStr "Walmart Supercenter"; CStr "Shopping";
       CStr "Sale"; CStr "-1,200.50"; CNum nan] ].

Definition offline_world : Environment := Stub.world Stub.offline Stub.no_files.

Definition answering (status : Z) (text : string) : Environment :=
  Stub.world
    (λ _, inr {| status_code := status; body := Some (VDict [("response", VStr text)]) |})
    Stub.no_files.

(** The CapitalOne scenario of the specification: one Uber row, and a
    payment row that the keyword ["payment"] excludes. *)
Example capone_scenario :
  Main.detect_format capone_file = "capone"
  ∧ (Main.normalize (H0 := offline_world) ["payment"] ∅ capone_file "capone" []).1 =
      inr [(0, {| date := Timestamp 1704412800000000000;
                  description := VStr "Uber Trip";
                  amount := CNum 15;
                  category := VStr "Transport";
                  source := "CapitalOne" |})].
Proof. split; vm_compute; reflexivity. Qed.

(** The Chase scenario: the separator is stripped and the sign dropped. *)
Example chase_scenario :
  Main.detect_format chase_file = "chase"
  ∧ (λ o, amount o.2) <$>
      match (Main.normalize (H0 := offline_world) [] ∅ chase_file "chase" []).1 with
      | inr out => out
      | inl _ => []
      end = [CNum 1200.5].
Proof. split; vm_compute; reflexivity. Qed.

(** Subtraction is the binary64 one. *)
Example capone_rounding :
  Main.astype_float (CStr "0.3") = inr 0.3%float
  ∧ (0.3 - 0.1)%float = 0.19999999999999998%float.
Proof. split; vm_compute; reflexivity. Qed.

(** A description the vendor table and the memory do not know, sent to a
    service that is down. *)
Lemma ai_categorize_remote_witness :
  let request := suggest_request (CStr "Blue Bottle") in
  let out := Main.ai_categorize (H0 := offline_world) ∅ (CStr "Blue Bottle") [] in
  out.2 = [Http request] ∧ out.1 = inr (VStr "Uncategorized").
Proof.
  pose proof (ai_categorize_remote (H0 := offline_world) ∅ (CStr "Blue Bottle") [] eq_refl)
    as (_ & Htrace & _ & Hdown & _).
  split; [exact Htrace | exact (Hdown Timeout eq_refl)].
Defined.

(** C3 as stated fails twice.  A successful reply of several words is
    returned whole, not cut to its first token; and a reply with status 500
    that carries a ["response"] is returned too, not replaced by
    ["Uncategorized"]. *)
Lemma ai_categorize_not_first_token :
  first_token "Food and Dining" = Some "Food"
  ∧ (Main.ai_categorize (H0 := answering 200 "Food and Dining") ∅ (CStr "Blue Bottle") []).1
      = inr (VStr "Food and Dining")
  ∧ (Main.ai_categorize (H0 := answering 200 "Food and Dining") ∅ (CStr "Blue Bottle") []).1
      ≠ inr (VStr "Food")
  ∧ (Main.ai_categorize (H0 := answering 500 "Internal Server Error") ∅
       (CStr "Blue Bottle") []).1
      ≠ inr (VStr "Uncategorized").
Proof. repeat split; try (vm_compute; reflexivity); vm_compute; discriminate. Qed.

(** The sibling in [ai_categorizer.py] does cut the reply to its first
    token and does check the status, but sends its request without a
    timeout. *)
Example categorize_transaction_sample :
  (AiCategorizer.categorize_transaction (H0 := answering 200 "Food and Dining")
     (CStr "Blue Bottle") []).1 = inr (VStr "Food")
  ∧ (AiCategorizer.categorize_transaction (H0 := answering 500 "Internal Server Error")
       (CStr "Blue Bottle") []).1 = inr (VStr "Uncategorized")
  ∧ (AiCategorizer.categorize_transaction (H0 := offline_world) (CStr "Blue Bottle") []).2
      = [Http (POST AiCategorizer.OLLAMA_URL "mistral"
                 (AiCategorizer.prompt (CStr "Blue Bottle")) None);
         Print (MsgCategorizationFailed (RequestException Timeout))].
Proof. repeat split; vm_compute; reflexivity. Qed.

Definition capone_run : (exn + Series NormRow) * trace :=
  Main.normalize (H0 := offline_world) ["payment"] ∅ capone_file "capone" [].

Definition capone_out : Series NormRow :=
  match capone_run.1 with
  | inr out => out
  | inl _ => []
  end.

(** The payment row of the CapitalOne sample is dropped, the other kept. *)
Lemma normalize_drops_excluded_witness :
  capone_out.*1 = [0]
  ∧ Main.should_exclude ["payment"] (CStr "Payment Thank You") = true
  ∧ Main.should_exclude ["payment"] (CStr "Uber Trip") = false.
Proof.
  assert (capone_run = (inr capone_out, capone_run.2)) as Hrun
    by (vm_compute; reflexivity).
  pose proof (normalize_drops_excluded (H0 := offline_world) ["payment"] ∅ capone_file
                "capone" [] capone_out capone_run.2 Hrun) as (Hidx & _).
  split; [rewrite Hidx; vm_compute; reflexivity|].
  split; vm_compute; reflexivity.
Defined.

(** Two Chase rows that differ in sign only. *)
Definition thousands_file : DataFrame :=
  Stub.table
    ["Transaction Date"; "Post Date"; "Description"; "Category"; "Type"; "Amount"; "Memo"]
    [ [CStr "2024-02-01"; CStr "2024-02-02"; CStr "Rent"; CStr "Home";
       CStr "Sale"; CStr "1,200.50"; CNum nan];
      [CStr "2024-02-03"; CStr "2024-02-04"; CStr "Rent refund"; CStr "Home";
       CStr "Return"; CStr "-1,200.50"; CNum nan] ].

Definition thousands_run : (exn + Series NormRow) * trace :=
  Main.normalize (H0 := offline_world) [] ∅ thousands_file "chase" [].

Definition thousands_out : Series NormRow :=
  match thousands_run.1 with
  | inr out => out
  | inl _ => []
  end.

(** Both Chase rows come out as 1200.5, and the CapitalOne row with a
    Debit of 15 and no Credit as 15. *)
Lemma normalize_amount_rules_witness :
  (λ o, amount o.2) <$> thousands_out = [CNum 1200.5; CNum 1200.5]
  ∧ (λ o, amount o.2) <$> capone_out = [CNum 15]
  ∧ Forall2
      (λ r o, r.1 = o.1 ∧ ∃ text parsed,
         without_commas (cell_str (cell_of "Amount" r.2)) text
         ∧ float_of_str text = Some parsed
         ∧ amount o.2 = CNum (abs parsed))
      (rows (kept [] thousands_file)) thousands_out
  ∧ Forall2
      (λ r o, r.1 = o.1 ∧ ∃ debit credit,
         read_or_zero (cell_of "Debit" r.2) debit
         ∧ read_or_zero (cell_of "Credit" r.2) credit
         ∧ amount o.2 = CNum (debit - credit))
      (rows (kept ["payment"] capone_file)) capone_out.
Proof.
  split; [vm_compute; reflexivity|]. split; [vm_compute; reflexivity|]. split.
  - apply (proj1 (normalize_amount_rules (H0 := offline_world) [] ∅ thousands_file []
                    thousands_out thousands_run.2)).
    vm_compute; reflexivity.
  - apply (proj1 (proj2 (normalize_amount_rules (H0 := offline_world) ["payment"] ∅
                           capone_file [] capone_out capone_run.2))).
    vm_compute; reflexivity.
Defined.

Definition stored_sample : gmap string string :=
  list_to_map
    [ ("date", "2024-01-05"); ("description", "Uber Trip"); ("amount", "15.0");
      ("category", "Transport"); ("source", "CapitalOne") ].

(** The row the store receives for the sample record. *)
Definition stored_row : @DbLoader.StoredRow string := {|
  DbLoader.date := "2024-01-05";
  DbLoader.description := "Uber Trip";
  DbLoader.amount := "15.0";
  DbLoader.category := "Transport";
  DbLoader.direction := "outflow";
  DbLoader.source := "CapitalOne";
  DbLoader.filename := "capone.csv";
|}.

(** The sample record without its category. *)
Definition broken_sample : gmap string string := delete "category" stored_sample.

Definition persist (df : list (gmap string string)) (file_name : string)
    (store : list (@DbLoader.StoredRow string)) :=
  DbLoader.insert_dataframe "outflow" (λ _, true) None df file_name store.

Definition first_run := persist [stored_sample] "capone.csv" [].
Definition second_run := persist [stored_sample] "capone.csv" first_run.1.2.


(** The sample record goes through and only the closing line is printed;
    with a record before it that has no category, the missing column is
    reported first. *)
Lemma insert_dataframe_report_witness :
  first_run.1.1 = inr tt
  ∧ first_run.2 = [DbLoader.InsertedRowsFrom "capone.csv"]
  ∧ (persist [broken_sample; stored_sample] "capone.csv" []).2
    = [DbLoader.InsertError (DbLoader.MissingColumn "category");
       DbLoader.InsertedRowsFrom "capone.csv"].
Proof.
  assert (sent "outflow" "capone.csv" stored_sample stored_row) as Hsent
    by (repeat split; vm_compute; reflexivity).
  pose proof (insert_dataframe_report "outflow" (λ _, true) None [stored_sample]
                "capone.csv" [] eq_refl) as (Hret & _ & Hclean).
  split; [exact Hret|]. split.
  - apply Hclean. intros row Hrow. apply list_elem_of_singleton in Hrow as ->.
    by exists stored_row.
  - destruct (insert_dataframe_report "outflow" (λ _, true) None
                [broken_sample; stored_sample] "capone.csv" [] eq_refl)
      as (_ & (errors & _ & Hunique & Hprinted) & _).
    unfold persist. rewrite Hprinted.
    rewrite <-(Hunique [DbLoader.MissingColumn "category"]); [reflexivity|].
    apply reported_missing.
    + exists ["date"; "description"; "amount"], ["source"].
      split; [reflexivity|]. split; [vm_compute; reflexivity|].
      intros c'. rewrite !elem_of_cons, elem_of_nil.
      intros [->|[->|[->|[]]]]; eexists; vm_compute; reflexivity.
    + eapply reported_accepted; [exact Hsent | reflexivity | apply reported_nil].
Defined.

(** A lookup service that is down until it has been asked once, then
    knows one company. *)
Definition recovering : Environment := {|
  http_reply := λ t r,
    match t, r with
    | _ :: _, GET _ _ =>
        inr {| status_code := 200;
               body := Some (VList [VDict [("name", VStr "Uber Technologies")]]) |}
    | _, _ => inl Timeout
    end;
  csv_contents := λ _ _, inr capone_file;
  write_outcome := λ _ _, None;
  rename_outcome := λ _ _, None;
|}.




(** C9 as stated fails: the first run inserts one row and skips none, the
    second inserts none and skips one, and both return and print the
    same, so what is reported cannot be a count. *)
Lemma insert_dataframe_reports_no_count :
  DbLoader.inserted "outflow" (λ _, true) None [stored_sample] "capone.csv" [] = 1
  ∧ DbLoader.inserted "outflow" (λ _, true) None [stored_sample] "capone.csv"
      first_run.1.2 = 0
  ∧ first_run.1.1 = second_run.1.1
  ∧ first_run.2 = second_run.2.
Proof. repeat split; vm_compute; reflexivity. Qed.
End Samples.

(** * Further properties of the code *)

(** ** ai_categorizer.py *)

Section OneWord.
Context `{Platform} `{Environment}.

Definition one_word_request (description : cell) : request :=
  POST AiCategorizer.OLLAMA_URL "mistral" (AiCategorizer.prompt description) None.

(** What the body of the [try] in [categorize_transaction] comes to. *)
Definition one_word_answer (reply : transport_error + response) : exn + value :=
  match reply with
  | inl e => inl (RequestException e)
  | inr resp =>
      if bool_decide (400 ≤ status_code resp < 600)%Z then inl (HTTPError (status_code resp))
      else
        match body resp with
        | None => inl JSONDecodeError
        | Some data =>
            match getitem_str data "response" with
            | inl e => inl e
            | inr answer =>
                match value_strip answer with
                | inl e => inl e
                | inr stripped => value_first_token stripped
                end
            end
        end
  end.

Lemma categorize_transaction_run (description : cell) (t : trace) :
  AiCategorizer.categorize_transaction description t =
    match one_word_answer (http_reply t (one_word_request description)) with
    | inr v => (inr v, t ++ [Http (one_word_request description)])
    | inl e =>
        (inr (VStr "Uncategorized"),
         t ++ [Http (one_word_request description); Print (MsgCategorizationFailed e)])
    end.
Proof.
  unfold AiCategorizer.categorize_transaction, AiCategorizer.raise_for_status,
    one_word_request, one_word_answer. run.
  destruct (http_reply t _) as [e|resp]; simpl; [by rewrite <-app_assoc|].
  case_bool_decide; simpl; [by rewrite <-app_assoc|].
  destruct (body resp) as [data|]; simpl; [|by rewrite <-app_assoc].
  destruct (getitem_str data "response") as [e|answer]; simpl; [by rewrite <-app_assoc|].
  destruct (value_strip answer) as [e|stripped]; simpl; [by rewrite <-app_assoc|].
  destruct (value_first_token stripped) as [e|tok]; simpl; [by rewrite <-app_assoc|done].
Qed.

(** [categorize_transaction] sends one request, without a timeout, and
    always returns text.  A reply with a status below 400 and a textual
    ["response"] gives the first whitespace-delimited token of it and
    prints nothing; a failed request, a status from 400 to 599, and a
    ["response"] that is blank all give ["Uncategorized"] and print the
    failure. *)
Theorem categorize_transaction_outcomes (description : cell) (t : trace) :
  let request := one_word_request description in
  let reply := http_reply t request in
  let out := AiCategorizer.categorize_transaction description t in
  (∃ s, out.1 = inr (VStr s))
  ∧ (∀ resp d text tok,
       reply = inr resp → ¬ (400 ≤ status_code resp < 600)%Z →
       body resp = Some (VDict d) → dict_get d "response" = Some (VStr text) →
       first_token (strip text) = Some tok →
       out = (inr (VStr tok), t ++ [Http request]))
  ∧ (∀ resp d text,
       reply = inr resp → ¬ (400 ≤ status_code resp < 600)%Z →
       body resp = Some (VDict d) → dict_get d "response" = Some (VStr text) →
       first_token (strip text) = None →
       out = (inr (VStr "Uncategorized"),
              t ++ [Http request; Print (MsgCategorizationFailed IndexError)]))
  ∧ (∀ resp,
       reply = inr resp → (400 ≤ status_code resp < 600)%Z →
       out = (inr (VStr "Uncategorized"),
              t ++ [Http request;
                    Print (MsgCategorizationFailed (HTTPError (status_code resp)))]))
  ∧ (∀ e,
       reply = inl e →
       out = (inr (VStr "Uncategorized"),
              t ++ [Http request; Print (MsgCategorizationFailed (RequestException e))])).
Proof.
  intros request reply out. subst request reply out.
  rewrite categorize_transaction_run.
  split.
  { destruct (one_word_answer _) as [e|v] eqn:Hanswer; simpl; [eauto|].
    unfold one_word_answer in Hanswer.
    destruct (http_reply t _) as [e|resp]; [done|].
    case_bool_decide; [done|].
    destruct (body resp) as [data|]; [|done].
    destruct (getitem_str data "response") as [e|answer]; [done|].
    destruct (value_strip answer) as [e|stripped]; [done|].
    destruct stripped; try done. simpl in Hanswer.
    destruct (first_token s); simplify_eq. eauto. }
  split; [|split; [|split]].
  - intros resp d text tok -> Hstatus Hbody Hd Htok. unfold one_word_answer.
    rewrite bool_decide_eq_false_2, Hbody by done. unfold getitem_str. rewrite Hd.
    unfold value_strip, value_first_token. by rewrite Htok.
  - intros resp d text -> Hstatus Hbody Hd Htok. unfold one_word_answer.
    rewrite bool_decide_eq_false_2, Hbody by done. unfold getitem_str. rewrite Hd.
    unfold value_strip, value_first_token. by rewrite Htok.
  - intros resp -> Hstatus. simpl. by rewrite bool_decide_eq_true_2.
  - by intros e ->.
Qed.
End OneWord.

(** ** The correction memory *)

Section Memory.
Context `{Platform} `{Environment}.

(** A correction takes effect at once, whether or not it could be written
    back: [ai_categorize] returns it for that description without a
    request, and so does [get_category] when no vendor pattern occurs in
    the description; other descriptions are looked up as before.  When the
    write succeeds the file holds the new dictionary, so a restart loads
    it.  When the file cannot be opened the call raises and the file is as
    it was.  When the write fails after the file was opened the call
    raises and the old contents are gone: the file holds the new
    dictionary or the beginning of it, and in the second case the next
    start cannot load it. *)
Theorem update_tag_feedback_takes_effect (outcome : Corrections.save_outcome)
    (description : string) (corrected_tag : value) (FEEDBACK_TAGS : gmap string value)
    (contents : Corrections.feedback_file) (t : trace) :
  let out :=
    Corrections.update_tag_feedback outcome description corrected_tag FEEDBACK_TAGS contents in
  let tags := out.1.2 in
  Main.ai_categorize tags (CStr description) t = (inr corrected_tag, t)
  ∧ ((∀ vendor tag, (vendor, tag) ∈ Main.VENDOR_MAP →
                    contains (lower description) vendor = false) →
     Main.get_category tags (CStr description) t = (inr corrected_tag, t))
  ∧ (∀ other, other ≠ description →
       Main.feedback_lookup tags (CStr other) = Main.feedback_lookup FEEDBACK_TAGS (CStr other))
  ∧ (outcome = Corrections.Saved →
     out.1.1 = inr tt ∧ Corrections.load_feedback_tags None out.2 = inr tags)
  ∧ (∀ e, outcome = Corrections.OpenFailed e →
       out.1.1 = inl (IOError e) ∧ out.2 = contents)
  ∧ (∀ e whole, outcome = Corrections.WriteFailed e whole →
       out.1.1 = inl (IOError e)
       ∧ out.2 = (if whole then Corrections.Holds tags else Corrections.Partial)
       ∧ (whole = false →
          Corrections.load_feedback_tags None out.2 = inl JSONDecodeError)).
Proof.
  intros out tags.
  assert (tags = <[description := corrected_tag]> FEEDBACK_TAGS) as Htags.
  { subst tags out. unfold Corrections.update_tag_feedback, Corrections.save_feedback_tags.
    by destruct outcome. }
  assert (Main.ai_categorize tags (CStr description) t = (inr corrected_tag, t)) as Hai.
  { rewrite ai_categorize_run, Htags. simpl. by rewrite lookup_insert_eq. }
  split; [done|]. split; [|split; [|split; [|split]]].
  - intros Hno. unfold Main.get_category, Main.tag_vendor.
    rewrite first_match_none by done. run. apply Hai.
  - intros other Hne. rewrite Htags. simpl. by rewrite lookup_insert_ne.
  - intros ->. subst tags out. done.
  - intros e ->. subst out. done.
  - intros e whole ->. subst tags out. simpl. split; [done|]. split; [done|].
    by intros ->.
Qed.
End Memory.

(** ** The dashboard's category *)

Section DashboardCategory.
Context `{Platform} `{Environment}.

Lemma dashboard_ai_categorize (s : string) (t : trace) :
  Streamlit.ai_categorize s t = Main.ai_categorize ∅ (CStr s) t.
Proof.
  unfold Main.ai_categorize, Main.feedback_lookup. by rewrite lookup_empty.
Qed.

(** The dashboard keeps a stored category that is not empty, without
    looking at the description and without a request.  For a row without
    one it resolves the description exactly as [get_category] of the
    pipeline does with an empty correction memory: vendor rules, then the
    remote service, the corrections never being consulted.  A description
    that is not text then raises [AttributeError] before any request. *)
Theorem fill_category_order (category description : value) (t : trace) :
  (truthy category = true →
   Streamlit.fill_category category description t = (inr category, t))
  ∧ (truthy category = false → ∀ s, description = VStr s →
     Streamlit.fill_category category description t = Main.get_category ∅ (CStr s) t)
  ∧ (truthy category = false → (∀ s, description ≠ VStr s) →
     Streamlit.fill_category category description t = (inl AttributeError, t)).
Proof.
  unfold Streamlit.fill_category. split; [by intros ->|]. split.
  - intros -> s ->. unfold Main.get_category, Streamlit.tag_vendor, Main.tag_vendor.
    change Streamlit.vendor_map with Main.VENDOR_MAP.
    destruct (Main.first_match Main.VENDOR_MAP (lower s)) as [tag|]; run.
    + destruct (negb _); [done | apply dashboard_ai_categorize].
    + apply dashboard_ai_categorize.
  - intros -> Hnot. destruct description; try done. by destruct (Hnot s).
Qed.
End DashboardCategory.

(** ** The exclusion keywords *)

Lemma isspace_lower_char (a : ascii) : isspace (lower_char a) = isspace a.
Proof. destruct a as [[] [] [] [] [] [] [] []]; vm_compute; reflexivity. Qed.

Lemma lower_char_idemp (a : ascii) : lower_char (lower_char a) = lower_char a.
Proof. destruct a as [[] [] [] [] [] [] [] []]; vm_compute; reflexivity. Qed.

Lemma lower_idemp (s : string) : lower (lower s) = lower s.
Proof. induction s as [|a s IH]; simpl; [done|]. by rewrite lower_char_idemp, IH. Qed.

Lemma lower_empty (s : string) : lower s = "" → s = "".
Proof. by destruct s. Qed.

Lemma lstrip_lower (s : string) : lstrip (lower s) = lower (lstrip s).
Proof.
  induction s as [|a s IH]; simpl; [done|].
  rewrite isspace_lower_char. by destruct (isspace a).
Qed.

Lemma rstrip_aux_lower (s : string) : rstrip_aux (lower s) = lower <$> rstrip_aux s.
Proof.
  induction s as [|a s IH]; simpl; [done|].
  rewrite IH, isspace_lower_char.
  destruct (rstrip_aux s); simpl; [done|]. by destruct (isspace a).
Qed.

Lemma strip_lower (s : string) : strip (lower s) = lower (strip s).
Proof.
  unfold strip, rstrip. rewrite lstrip_lower, rstrip_aux_lower.
  by destruct (rstrip_aux (lstrip s)).
Qed.

(** A text is trimmed on the left when it is empty or starts with a
    character that is not whitespace. *)
Definition trimmed_left (s : string) : Prop :=
  match s with
  | EmptyString => True
  | String a _ => isspace a = false
  end.

Lemma lstrip_trimmed (s : string) : trimmed_left (lstrip s).
Proof.
  induction s as [|a s IH]; simpl; [done|].
  destruct (isspace a) eqn:Ha; [done | by simpl].
Qed.

Lemma lstrip_id (s : string) : trimmed_left s → lstrip s = s.
Proof. destruct s as [|a s]; simpl; [done|]. by intros ->. Qed.

Lemma rstrip_aux_idemp (s r : string) : rstrip_aux s = Some r → rstrip_aux r = Some r.
Proof.
  revert r. induction s as [|a s IH]; intros r; simpl; [done|].
  destruct (rstrip_aux s) as [r'|] eqn:Hs.
  - intros [= <-]. simpl. by rewrite (IH r').
  - destruct (isspace a) eqn:Ha; [done|]. intros [= <-]. simpl. by rewrite Ha.
Qed.

Lemma rstrip_trimmed (s : string) : trimmed_left s → trimmed_left (rstrip s).
Proof.
  unfold rstrip. destruct s as [|a s]; simpl; [done|]. intros Ha.
  destruct (rstrip_aux s); simpl; [done|]. by rewrite Ha.
Qed.

Lemma strip_idemp (s : string) : strip (strip s) = strip s.
Proof.
  unfold strip. rewrite (lstrip_id (rstrip _)) by apply rstrip_trimmed, lstrip_trimmed.
  unfold rstrip. destruct (rstrip_aux (lstrip s)) as [r|] eqn:Hr; simpl; [|done].
  by rewrite (rstrip_aux_idemp _ _ Hr).
Qed.

Section Keywords.
Context `{Platform}.

(** The keywords [load_filter_keywords] returns are the non-blank lines
    of the file, each trimmed and lower-cased: none is empty, and each is
    already in lower case and trimmed.  Hence a line of the file excludes
    a description whatever the case either is written in; and a missing
    file, like a file of blank lines, excludes nothing. *)
Theorem load_filter_keywords_normalized (lines : list string) :
  let keywords := Main.load_filter_keywords (Some lines) in
  (∀ k, k ∈ keywords ↔ ∃ line, line ∈ lines ∧ strip line ≠ "" ∧ k = lower (strip line))
  ∧ (∀ k, k ∈ keywords → k ≠ "" ∧ lower k = k ∧ strip k = k)
  ∧ (∀ line description, line ∈ lines → strip line ≠ "" →
       contains (lower (cell_str description)) (lower (strip line)) = true →
       Main.should_exclude keywords description = true)
  ∧ ((∀ line, line ∈ lines → strip line = "") →
     ∀ description, Main.should_exclude keywords description = false)
  ∧ (∀ description,
       Main.should_exclude (Main.load_filter_keywords None) description = false).
Proof.
  intros keywords.
  assert (∀ k, k ∈ keywords ↔
               ∃ line, line ∈ lines ∧ strip line ≠ "" ∧ k = lower (strip line)) as Hin.
  { intros k. subst keywords. unfold Main.load_filter_keywords.
    rewrite list_elem_of_fmap. split.
    - intros (line & -> & [Hne Hl]%list_elem_of_filter). by exists line.
    - intros (line & Hl & Hne & ->). exists line. split; [done|].
      by apply list_elem_of_filter. }
  split; [done|]. split; [|split; [|split]].
  - intros k (line & _ & Hne & ->)%Hin. split; [|split].
    + intros Hempty%lower_empty. done.
    + apply lower_idemp.
    + by rewrite strip_lower, strip_idemp.
  - intros line description Hl Hne Hsub. unfold Main.should_exclude.
    apply existsb_exists. exists (lower (strip line)). split; [|done].
    apply list_elem_of_In, Hin. by exists line.
  - intros Hblank description. unfold Main.should_exclude.
    apply not_true_is_false. intros (k & Hk & _)%existsb_exists.
    apply list_elem_of_In, Hin in Hk as (line & Hl & Hne & _).
    by destruct (Hne (Hblank line Hl)).
  - done.
Qed.
End Keywords.

(** ** Normalization, row by row *)

(** When each call appends events that depend on the element only, a
    successful [apply] appends them element by element. *)
Lemma apply_trace {A B} (f : A → M B) (ev : A → list event) (s : Series A) t r t' :
  (∀ x t0, (f x t0).2 = t0 ++ ev x) →
  apply f s t = (inr r, t') →
  t' = t ++ concat ((λ x, ev x.2) <$> s).
Proof.
  intros Hev. unfold apply. revert t r t'.
  induction s as [|[i x] s IH]; intros t r t'; simpl.
  - intros [= _ <-]. by rewrite app_nil_r.
  - unfold mbind, M_bind, mret, M_ret. simpl.
    pose proof (Hev x t) as Hx.
    destruct (f x t) as [[e|y] t1]; [done|]. simpl in Hx. subst t1.
    destruct (mapM (M := M) _ s (t ++ ev x)) as [[e|k] t2] eqn:Hk; [done|].
    intros [= _ <-]. apply IH in Hk. by rewrite Hk, app_assoc.
Qed.

(** The call for the element at position [k] starts from the trace that
    the calls for the elements before it have left. *)
Lemma apply_lookup {A B} (f : A → M B) (ev : A → list event) (s : Series A) t r t' :
  (∀ x t0, (f x t0).2 = t0 ++ ev x) →
  apply f s t = (inr r, t') →
  ∀ k x, s !! k = Some x →
    ∃ y, r !! k = Some (x.1, y)
         ∧ (f x.2 (t ++ concat ((λ x, ev x.2) <$> take k s))).1 = inr y.
Proof.
  intros Hev. unfold apply. revert t r t'.
  induction s as [|[i x] s IH]; intros t r t' Hrun k z Hk; [done|].
  simpl in Hrun. unfold mbind, M_bind, mret, M_ret in Hrun. simpl in Hrun.
  pose proof (Hev x t) as Hx.
  destruct (f x t) as [[e|y] t1] eqn:Hfx; [done|]. simpl in Hx. subst t1.
  destruct (mapM (M := M) _ s (t ++ ev x)) as [[e|rest] t2] eqn:Hrest; [done|].
  injection Hrun as <- <-. destruct k as [|k]; simpl in Hk.
  - injection Hk as <-. exists y. simpl. by rewrite app_nil_r, Hfx.
  - destruct (IH _ _ _ Hrest k z Hk) as (w & Hw & Hfz).
    exists w. split; [done|]. csimpl. by rewrite app_assoc.
Qed.

Lemma concat_singletons {A B C} (h : A → B) (g : B → C) (l : list A) :
  concat ((λ x, [g x]) <$> (h <$> l)) = (λ x, g (h x)) <$> l.
Proof. induction l as [|x l IH]; csimpl; [done|]. by rewrite IH. Qed.

Lemma concat_optional {A B C} (h : A → B) (p : B → bool) (g : B → C) (l : list A) :
  concat ((λ x, if p x then [g x] else []) <$> (h <$> l))
  = (λ x, g (h x)) <$> filter (λ x, p (h x) = true) l.
Proof.
  induction l as [|x l IH]; csimpl; [done|]. rewrite IH.
  destruct (p (h x)) eqn:Hp.
  - by rewrite filter_cons_True.
  - rewrite filter_cons_False; [done|]. by rewrite Hp.
Qed.

Lemma frame_lookup (dates : Series timestamp) (descriptions : Series value)
    (amounts : Series cell) (categories : Series value) (label : string) k o :
  Main.frame dates descriptions amounts categories label !! k = Some o →
  ∃ d x a c, dates !! k = Some d ∧ descriptions !! k = Some x ∧ amounts !! k = Some a
    ∧ categories !! k = Some c
    ∧ o = (d.1, {| date := d.2; description := x.2; amount := a.2; category := c.2;
                   source := label |}).
Proof.
  unfold Main.frame. intros (d & [x [a c]] & -> & Hd & Hz)%lookup_zip_with_Some.
  apply lookup_zip_with_Some in Hz as (x' & [a' c'] & [= <- <- <-] & Hx & Hz).
  apply lookup_zip_with_Some in Hz as (a' & c' & [= <- <-] & Ha & Hc).
  by exists d, x, a, c.
Qed.

Lemma column_of_setitem_ne df c c' (s : Series cell) :
  c ≠ c' → length s = length (rows df) →
  column_of (setitem df c s) c' = column_of df c'.
Proof.
  intros Hne. unfold column_of. simpl. revert s.
  induction (rows df) as [|[i r] l IH]; intros [|[j x] s]; try done.
  intros [= Hlen]. csimpl. f_equal; [|by apply IH].
  unfold prod_map, cell_of. simpl. by rewrite lookup_insert_ne.
Qed.

Section FullRows.
Context `{Platform} `{Environment}.
Variable FILTER_KEYWORDS : list string.
Variable FEEDBACK_TAGS : gmap string value.

Local Abbreviation normalize := (Main.normalize FILTER_KEYWORDS FEEDBACK_TAGS).
Local Abbreviation kept := (kept FILTER_KEYWORDS).

Lemma canonical_inr_full df date_column amounts label t out t' :
  Main.canonical FEEDBACK_TAGS df date_column amounts label t = (inr out, t') →
  ∃ dates descs amts cats t1 t2,
    Main.parse_dates (column_of df date_column) = inr dates
    ∧ apply Main.enrich_merchant (column_of df "Description") t = (inr descs, t1)
    ∧ amounts t1 = (inr amts, t2)
    ∧ apply (Main.get_category FEEDBACK_TAGS) (column_of df "Description") t2
        = (inr cats, t')
    ∧ out = Main.frame dates descs amts cats label.
Proof.
  intros Hrun. unfold Main.canonical in Hrun. run_in Hrun.
  destruct (getitem df date_column) as [e|raw_dates] eqn:Hraw; [done|].
  apply getitem_column in Hraw as ->. simpl in Hrun.
  destruct (Main.parse_dates _) as [e|dates] eqn:Hdates; [done|].
  simpl in Hrun.
  destruct (getitem df "Description") as [e|raw] eqn:Hdesc; [done|].
  apply getitem_column in Hdesc as ->. simpl in Hrun.
  destruct (apply Main.enrich_merchant _ t) as [[e|descs] t1] eqn:Hdescs; [done|].
  destruct (amounts t1) as [[e|amts] t2] eqn:Hamts; [done|].
  destruct (apply (Main.get_category FEEDBACK_TAGS) _ t2) as [[e|cats] t3] eqn:Hcats;
    [done|].
  injection Hrun as <- <-. by exists dates, descs, amts, cats, t1, t2.
Qed.

(** The date column and the source label of each branch. *)
Definition plan (source : string) : option (string * string) :=
  if String.eqb source "amex" then Some ("Date", "Amex")
  else if String.eqb source "chase" then Some ("Transaction Date", "Chase")
  else if String.eqb source "bilt" then Some ("Transaction Date", "Bilt")
  else if String.eqb source "capone" then Some ("Transaction Date", "CapitalOne")
  else None.

Lemma plain_amount_trace df t r t' :
  (raw ← of_result (getitem df "Amount");
   floats ← of_result (convert Main.astype_float raw);
   mret (Main.as_cells floats)) t = (r, t') → t' = t.
Proof.
  intros Hrun. run_in Hrun.
  destruct (getitem df "Amount") as [e|raw]; simpl in Hrun; [by injection Hrun|].
  destruct (convert Main.astype_float raw); by injection Hrun.
Qed.

Lemma plain_amount_length df t amts t' :
  (raw ← of_result (getitem df "Amount");
   floats ← of_result (convert Main.astype_float raw);
   mret (Main.as_cells floats)) t = (inr amts, t') →
  length amts = length (rows df).
Proof.
  intros (floats & Hfloats & ->)%plain_amount_inr.
  apply fmap_fst_length. rewrite as_cells_fst, (convert_fst _ _ _ Hfloats).
  apply column_of_fst.
Qed.

Lemma written_amount_inr df c (floats : Series float) t amts t' :
  floats.*1 = (rows df).*1 →
  of_result (getitem (setitem df c (Main.as_cells floats)) c) t = (inr amts, t') →
  t' = t ∧ length amts = length (rows df).
Proof.
  intros Hidx Hrun.
  rewrite getitem_setitem in Hrun by by rewrite as_cells_fst.
  injection Hrun as <- <-. split; [done|].
  apply fmap_fst_length. by rewrite as_cells_fst.
Qed.

Lemma normalize_inr_full df source t out t' :
  normalize df source t = (inr out, t') →
  ∃ date_column label dates descs amts cats t1,
    plan source = Some (date_column, label)
    ∧ Main.parse_dates (column_of (kept df) date_column) = inr dates
    ∧ apply Main.enrich_merchant (column_of (kept df) "Description") t = (inr descs, t1)
    ∧ apply (Main.get_category FEEDBACK_TAGS) (column_of (kept df) "Description") t1
        = (inr cats, t')
    ∧ length amts = length (rows (kept df))
    ∧ out = Main.frame dates descs amts cats label.
Proof.
  intros Hrun. unfold Main.normalize in Hrun.
  unfold mbind at 1 in Hrun. unfold M_bind at 1 in Hrun.
  destruct (of_result (getitem df "Description") t) as [[e|s0] t0] eqn:Hfirst; [done|].
  assert (t0 = t) as -> by (destruct (getitem df "Description"); by injection Hfirst).
  change (getitem_apply _ df) with (kept df) in Hrun. unfold plan.
  destruct (String.eqb_spec source "amex") as [->|Hamex];
    [|destruct (String.eqb_spec source "chase") as [->|Hchase];
      [|destruct (String.eqb_spec source "bilt") as [->|Hbilt];
        [|destruct (String.eqb_spec source "capone") as [->|Hcapone];
          [|by unfold raise in Hrun]]]].
  - apply canonical_inr_full in Hrun
      as (dates & descs & amts & cats & t1 & t2 & Hd & Hx & Ha & Hc & ->).
    pose proof (plain_amount_length _ _ _ _ Ha) as Hlen.
    apply plain_amount_trace in Ha as ->.
    by exists "Date", "Amex", dates, descs, amts, cats, t1.
  - run_in Hrun.
    destruct (getitem (kept df) "Amount") as [e|raw] eqn:Hraw; [done|].
    apply getitem_column in Hraw as ->. simpl in Hrun.
    destruct (convert Main.chase_amount _) as [e|floats] eqn:Hfloats; [done|].
    simpl in Hrun.
    assert (floats.*1 = (rows (kept df)).*1) as Hidx.
    { rewrite (convert_fst _ _ _ Hfloats). apply column_of_fst. }
    apply canonical_inr_full in Hrun
      as (dates & descs & amts & cats & t1 & t2 & Hd & Hx & Ha & Hc & ->).
    apply written_amount_inr in Ha as [-> Hlen]; [|done].
    rewrite !column_of_setitem_ne in *
      by (done || (apply fmap_fst_length; by rewrite as_cells_fst)).
    by exists "Transaction Date", "Chase", dates, descs, amts, cats, t1.
  - apply canonical_inr_full in Hrun
      as (dates & descs & amts & cats & t1 & t2 & Hd & Hx & Ha & Hc & ->).
    pose proof (plain_amount_length _ _ _ _ Ha) as Hlen.
    apply plain_amount_trace in Ha as ->.
    by exists "Transaction Date", "Bilt", dates, descs, amts, cats, t1.
  - run_in Hrun.
    destruct (getitem (kept df) "Debit") as [e|raw_debit] eqn:Hraw_debit; [done|].
    apply getitem_column in Hraw_debit as ->. simpl in Hrun.
    destruct (convert Main.astype_float _) as [e|debit] eqn:Hdebit; [done|].
    simpl in Hrun.
    destruct (getitem (kept df) "Credit") as [e|raw_credit] eqn:Hraw_credit; [done|].
    apply getitem_column in Hraw_credit as ->. simpl in Hrun.
    destruct (convert Main.astype_float
                (prod_map id Main.fillna_0 <$> column_of (kept df) "Credit"))
      as [e|credit] eqn:Hcredit; [done|].
    simpl in Hrun.
    set (floats := zip_with (λ d c : nat * float, (d.1, (d.2 - c.2)%float)) debit credit)
      in Hrun.
    assert (floats.*1 = (rows (kept df)).*1) as Hidx.
    { apply convert_fst in Hdebit, Hcredit.
      rewrite <-list_fmap_compose in Hdebit, Hcredit.
      assert (debit.*1 = (rows (kept df)).*1) as Hdi.
      { rewrite Hdebit, <-(column_of_fst (kept df) "Debit").
        by apply list_fmap_ext; intros []. }
      assert (credit.*1 = (rows (kept df)).*1) as Hci.
      { rewrite Hcredit, <-(column_of_fst (kept df) "Credit").
        by apply list_fmap_ext; intros []. }
      rewrite <-Hdi. subst floats. clear -Hdi Hci. rewrite <-Hci in Hdi. clear Hci.
      revert credit Hdi. induction debit as [|d debit IH]; intros [|c credit]; try done.
      intros [= _ Hdi]. csimpl. f_equal. by apply IH. }
    apply canonical_inr_full in Hrun
      as (dates & descs & amts & cats & t1 & t2 & Hd & Hx & Ha & Hc & ->).
    apply written_amount_inr in Ha as [-> Hlen]; [|done].
    rewrite !column_of_setitem_ne in *
      by (done || (apply fmap_fst_length; by rewrite as_cells_fst)).
    by exists "Transaction Date", "CapitalOne", dates, descs, amts, cats, t1.
Qed.

(** What [enrich_merchant] returns for a description, given the reply. *)
Definition enriched (description : cell) (reply : transport_error + response) : value :=
  match reply with
  | inl _ => cell_value description
  | inr resp =>
      if (status_code resp =? 200)%Z then
        match body resp with
        | None => cell_value description
        | Some data =>
            if truthy data then
              match getitem_0 data with
              | inl _ => cell_value description
              | inr first =>
                  match getitem_str first "name" with
                  | inl _ => cell_value description
                  | inr found => found
                  end
              end
            else cell_value description
        end
      else cell_value description
  end.

Lemma enrich_merchant_enriched (description : cell) (t : trace) :
  Main.enrich_merchant description t =
    (inr (enriched description (http_reply t (suggest_url description))),
     t ++ [Http (suggest_url description)]).
Proof. apply enrich_merchant_run. Qed.

Lemma first_match_in (table : list (string * string)) (s tag : string) :
  Main.first_match table s = Some tag → ∃ vendor, (vendor, tag) ∈ table.
Proof.
  induction table as [|[v g] table IH]; simpl; [done|].
  destruct (contains s v).
  - intros [= ->]. exists v. by left.
  - intros (vendor & Hin)%IH. exists vendor. by right.
Qed.

(** What [get_category] returns for a text description, given the reply
    the remote service makes should it be asked. *)
Definition resolution (s : string) (reply : transport_error + response) : value :=
  match Main.first_match Main.VENDOR_MAP (lower s) with
  | Some tag => VStr tag
  | None =>
      match FEEDBACK_TAGS !! s with
      | Some memorized => memorized
      | None => remote_answer reply
      end
  end.

Lemma get_category_inr (c : cell) t v :
  (Main.get_category FEEDBACK_TAGS c t).1 = inr v →
  ∃ s, c = CStr s ∧ v = resolution s (http_reply t (suggest_request (CStr s))).
Proof.
  destruct c as [s|f]; [|done]. intros Hrun. exists s. split; [done|].
  unfold Main.get_category, Main.tag_vendor in Hrun. unfold resolution.
  destruct (Main.first_match Main.VENDOR_MAP (lower s)) as [tag|] eqn:Htag; run_in Hrun.
  - apply first_match_in in Htag as [vendor Hin].
    apply VENDOR_MAP_tags_truthy in Hin. simpl in Hin. rewrite Hin in Hrun.
    by injection Hrun as <-.
  - rewrite ai_categorize_run in Hrun. simpl in Hrun.
    destruct (FEEDBACK_TAGS !! s); by injection Hrun as <-.
Qed.

(** Whether [get_category] has to ask the remote service. *)
Definition needs_remote (c : cell) : bool :=
  match c with
  | CStr s =>
      match Main.first_match Main.VENDOR_MAP (lower s) with
      | Some _ => false
      | None => bool_decide (FEEDBACK_TAGS !! s = None)
      end
  | CNum _ => false
  end.

Lemma get_category_trace (c : cell) (t : trace) :
  (Main.get_category FEEDBACK_TAGS c t).2 =
    t ++ (if needs_remote c then [Http (suggest_request c)] else []).
Proof.
  destruct c as [s|f]; [|by rewrite app_nil_r].
  unfold Main.get_category, Main.tag_vendor, needs_remote.
  destruct (Main.first_match Main.VENDOR_MAP (lower s)) as [tag|] eqn:Htag; run.
  - apply first_match_in in Htag as [vendor Hin].
    apply VENDOR_MAP_tags_truthy in Hin. simpl in Hin. rewrite Hin.
    by rewrite app_nil_r.
  - rewrite ai_categorize_run. simpl.
    destruct (FEEDBACK_TAGS !! s); simpl; [by rewrite app_nil_r | done].
Qed.

(** Each row that [normalize] returns belongs to the kept input row at
    the same position and has its label.  The dates are what
    [pd.to_datetime] makes of the date column of the format, taken as a
    whole; the source is the label of the format.  The description is what
    the lookup service answered for the raw description when it was asked,
    that is after the lookups of the rows before: the name of the first
    candidate, or the raw description.  The category is what the raw (not
    the enriched) description resolves to: the first matching vendor rule,
    else the correction, else what the remote service answered when it was
    asked, after all the lookups and the categorization requests of the
    rows before.  In particular [normalize] only succeeds when every kept
    description is text. *)
Theorem normalize_rows (df : DataFrame) (format : string) (t : trace)
    (out : Series NormRow) (t' : trace) :
  normalize df format t = (inr out, t') →
  let lookups := (λ r, Http (suggest_url (description_of r.2))) <$> rows (kept df) in
  let asked (k : nat) :=
    (λ r, Http (suggest_request (description_of r.2)))
      <$> filter (λ r, needs_remote (description_of r.2) = true) (take k (rows (kept df))) in
  ∃ date_column label,
    plan format = Some (date_column, label)
    ∧ out.*1 = (rows (kept df)).*1
    ∧ to_datetime (cell_of date_column <$> (rows (kept df)).*2)
        = Some ((λ o, date o.2) <$> out)
    ∧ ∀ k r o, rows (kept df) !! k = Some r → out !! k = Some o →
        source o.2 = label
        ∧ description o.2 =
            enriched (description_of r.2)
              (http_reply (t ++ take k lookups) (suggest_url (description_of r.2)))
        ∧ ∃ s, description_of r.2 = CStr s
            ∧ category o.2 =
                resolution s
                  (http_reply (t ++ lookups ++ asked k) (suggest_request (CStr s))).
Proof.
  intros Hrun lookups asked.
  destruct (normalize_inr_full _ _ _ _ _ Hrun)
    as (date_column & label & dates & descs & amts & cats & t1
        & Hplan & Hd & Hx & Hc & Hlen & ->).
  exists date_column, label. split; [done|].
  apply parse_dates_inr in Hd as [Hidx Hdates].
  rewrite column_of_fst in Hidx.
  pose proof (apply_fst _ _ _ _ _ Hx) as Hxi. rewrite column_of_fst in Hxi.
  pose proof (apply_fst _ _ _ _ _ Hc) as Hci. rewrite column_of_fst in Hci.
  destruct (frame_columns dates descs amts cats label) as (F1 & _ & _ & _ & _).
  { apply fmap_fst_length. congruence. }
  { rewrite Hlen. symmetry. by apply fmap_fst_length. }
  { apply fmap_fst_length. congruence. }
  assert ((λ o : nat * NormRow, date o.2)
            <$> Main.frame dates descs amts cats label = dates.*2) as Hout_dates.
  { assert (length descs = length dates) as L1 by (apply fmap_fst_length; congruence).
    assert (length amts = length dates) as L2
      by (rewrite Hlen; symmetry; by apply fmap_fst_length).
    assert (length cats = length dates) as L3 by (apply fmap_fst_length; congruence).
    clear -L1 L2 L3. unfold Main.frame. revert descs amts cats L1 L2 L3.
    induction dates as [|d dates IH]; intros [|x xs] [|a az] [|c cs]; try done.
    intros [= L1] [= L2] [= L3]. csimpl. f_equal. by apply IH. }
  split; [congruence|]. split.
  { rewrite Hout_dates, <-Hdates. f_equal. unfold column_of.
    rewrite <-!list_fmap_compose. by apply list_fmap_ext; intros []. }
  assert (t1 = t ++ lookups) as ->.
  { rewrite (apply_trace _ (λ c, [Http (suggest_url c)]) _ _ _ _
               (λ c t0, f_equal snd (enrich_merchant_enriched c t0)) Hx).
    f_equal. unfold column_of. by rewrite concat_singletons. }
  intros k r o Hr Ho.
  apply frame_lookup in Ho as (d & x & a & c & Hdk & Hxk & Hak & Hck & ->). simpl.
  assert (column_of (kept df) "Description" !! k = Some (r.1, description_of r.2)) as Hcol.
  { unfold column_of, Series. rewrite list_lookup_fmap, Hr. by destruct r. }
  split; [done|]. split.
  - destruct (apply_lookup _ (λ c, [Http (suggest_url c)]) _ _ _ _
                (λ c t0, f_equal snd (enrich_merchant_enriched c t0)) Hx k _ Hcol)
      as (y & Hy & Hrun').
    rewrite Hxk in Hy. injection Hy as ->. simpl in Hrun'.
    rewrite enrich_merchant_enriched in Hrun'. injection Hrun' as <-.
    unfold column_of. rewrite <-fmap_take, concat_singletons.
    subst lookups. by rewrite fmap_take.
  - destruct (apply_lookup _ (λ c, if needs_remote c then [Http (suggest_request c)] else [])
                _ _ _ _ get_category_trace Hc k _ Hcol) as (y & Hy & Hrun').
    rewrite Hck in Hy. injection Hy as ->. simpl in Hrun'.
    apply get_category_inr in Hrun' as (s & Hs & ->). exists s. split; [done|].
    simpl. f_equal. f_equal. rewrite <-app_assoc. f_equal. f_equal.
    unfold column_of. by rewrite <-fmap_take, concat_optional.
Qed.

(** The requests of a successful [normalize]: one lookup per kept row, in
    row order, all of them before any categorization; then one
    categorization request for each kept row that no vendor rule matches
    and the correction memory does not know, in row order. *)
Theorem normalize_requests (df : DataFrame) (source : string) (t : trace)
    (out : Series NormRow) (t' : trace) :
  normalize df source t = (inr out, t') →
  t' = t
       ++ ((λ r, Http (suggest_url (description_of r.2))) <$> rows (kept df))
       ++ ((λ r, Http (suggest_request (description_of r.2)))
             <$> filter (λ r, needs_remote (description_of r.2) = true) (rows (kept df))).
Proof.
  intros Hrun.
  destruct (normalize_inr_full _ _ _ _ _ Hrun)
    as (date_column & label & dates & descs & amts & cats & t1
        & _ & _ & Hx & Hc & _ & _).
  apply (apply_trace _ (λ c, [Http (suggest_url c)])) in Hx;
    [|intros c t0; by rewrite enrich_merchant_enriched].
  apply (apply_trace _ (λ c, if needs_remote c then [Http (suggest_request c)] else []))
    in Hc; [|apply get_category_trace].
  rewrite Hc, Hx, <-app_assoc. f_equal. unfold column_of. f_equal.
  - induction (rows (kept df)) as [|[i r] l IH]; csimpl; [done|]. by rewrite IH.
  - induction (rows (kept df)) as [|[i r] l IH]; csimpl; [done|].
    rewrite IH. change (cell_of "Description" r) with (description_of r).
    destruct (needs_remote (description_of r)) eqn:Hneed.
    + by rewrite filter_cons_True.
    + rewrite filter_cons_False; [done|]. simpl. by rewrite Hneed.
Qed.
End FullRows.

(** ** Amounts and the failures of a branch *)

Lemma abs_not_negative (f : float) : (abs f <? 0)%float = false.
Proof.
  rewrite ltb_spec, abs_spec.
  destruct (Prim2SF f) as [[]|[]| |[] m e]; vm_compute; reflexivity.
Qed.

Lemma getitem_present df c : c ∈ columns df → getitem df c = inr (column_of df c).
Proof. intros Hc. unfold getitem. by rewrite bool_decide_eq_true_2. Qed.

Section Branches.
Context `{Platform} `{Environment}.
Variable FILTER_KEYWORDS : list string.
Variable FEEDBACK_TAGS : gmap string value.

Local Abbreviation normalize := (Main.normalize FILTER_KEYWORDS FEEDBACK_TAGS).
Local Abbreviation process_csv := (Main.process_csv FILTER_KEYWORDS FEEDBACK_TAGS).
Local Abbreviation kept := (kept FILTER_KEYWORDS).

(** An AmEx or Bilt row keeps the sign of its Amount: the amount is the
    cell read as a float, with no absolute value taken and no separator
    removed.  So a kept row whose Amount is text that [float] rejects
    makes [normalize] fail for the whole file. *)
Theorem plain_amounts_signed (df : DataFrame) (format : string) (t : trace) :
  format = "amex" ∨ format = "bilt" →
  (∀ out t', normalize df format t = (inr out, t') →
     Forall2
       (λ r o, r.1 = o.1 ∧ ∃ f,
          Main.astype_float (cell_of "Amount" r.2) = inr f ∧ amount o.2 = CNum f)
       (rows (kept df)) out)
  ∧ (∀ i r s, (i, r) ∈ rows (kept df) → cell_of "Amount" r = CStr s →
       float_of_str s = None →
       ∀ out t', normalize df format t ≠ (inr out, t')).
Proof.
  intros Hformat.
  assert (∀ out t', normalize df format t = (inr out, t') →
     Forall2
       (λ r o, r.1 = o.1 ∧ ∃ f,
          Main.astype_float (cell_of "Amount" r.2) = inr f ∧ amount o.2 = CNum f)
       (rows (kept df)) out) as Hrows.
  { intros out t' Hrun.
    destruct (normalize_inr _ _ _ _ _ _ _ Hrun)
      as (Hidx & floats & Hamts & _ & [[_ Hfloats]|[[-> _]|[-> _]]]);
      [|by destruct Hformat..].
    apply (rows_out_Forall2 _ floats _
             (λ r f, Main.astype_float (cell_of "Amount" r) = inr f)); [|done..].
    apply convert_inr in Hfloats. unfold column_of in Hfloats.
    by rewrite Forall2_fmap_l in Hfloats. }
  split; [done|].
  intros i r s Hin Hcell Hnone out t' Hrun.
  apply list_elem_of_lookup in Hin as [k Hk].
  destruct (Forall2_lookup_l _ _ _ _ _ (Hrows out t' Hrun) Hk) as (o & _ & _ & f & Hf & _).
  simpl in Hf. rewrite Hcell in Hf. simpl in Hf. by rewrite Hnone in Hf.
Qed.

(** No amount of a normalized Chase file is negative. *)
Theorem chase_amounts_not_negative (df : DataFrame) (t : trace) (out : Series NormRow)
    (t' : trace) :
  normalize df "chase" t = (inr out, t') →
  Forall (λ o, ∃ f, amount o.2 = CNum f ∧ (f <? 0)%float = false) out.
Proof.
  intros Hrun.
  destruct (normalize_inr _ _ _ _ _ _ _ Hrun)
    as (Hidx & floats & Hamts & _ & [[[?|?] _]|[[_ Hfloats]|[? _]]]); try done.
  apply convert_inr in Hfloats.
  assert (Forall (λ y : nat * float, (y.2 <? 0)%float = false) floats) as Hpos.
  { clear -Hfloats. induction Hfloats as [|x y l k [_ Hxy] _ IH]; constructor; [|done].
    unfold Main.chase_amount in Hxy. destruct (float_of_str _); [|done].
    injection Hxy as <-. apply abs_not_negative. }
  clear -Hamts Hpos. revert out Hamts.
  induction Hpos as [|y floats Hy _ IH]; intros [|o out]; try done.
  intros [= Ho Hout]. constructor; [by exists y.2 | by apply IH].
Qed.

(** The errors a branch can raise once its columns are there. *)
Definition conversion_error (e : exn) : Prop :=
  (∃ s, e = ValueError_float s) ∨ (∃ c, e = ValueError_datetime c) ∨ e = AttributeError.

Lemma canonical_conversion_errors df date_column amounts label :
  date_column ∈ columns df → "Description" ∈ columns df →
  behaves (λ _, True) conversion_error amounts →
  behaves (λ _, True) conversion_error
    (Main.canonical FEEDBACK_TAGS df date_column amounts label).
Proof.
  intros Hdate Hdesc Hamounts. unfold Main.canonical.
  rewrite (getitem_present df date_column), (getitem_present df "Description") by done.
  apply behaves_bind'; [apply behaves_ret|]. intros raw_dates.
  apply behaves_bind'.
  { apply behaves_of_result. intros e ->%parse_dates_inl. right. left. eauto. }
  intros dates. apply behaves_bind'.
  { apply behaves_bind'; [apply behaves_ret|]. intros s. apply apply_behaves.
    intros x _. eapply behaves_weaken; [| |apply enrich_merchant_behaves]; done. }
  intros descriptions. apply behaves_bind'; [done|].
  intros amts. apply behaves_bind'; [|intros; apply behaves_ret].
  apply behaves_bind'; [apply behaves_ret|]. intros s. apply apply_behaves.
  intros x _. eapply behaves_weaken; [| |apply get_category_behaves]; [done|].
  intros e ->. right. by right.
Qed.

(** A file detected as Chase has every column its branch reads.  When it
    has at least one row, normalizing it can only fail on a value: an
    Amount or a date column that does not parse, or a kept description
    that is not text; it never fails for a missing column.  When it has a
    header and no row, the filter leaves a frame without columns, and the
    branch fails at once on the first column it reads, before any
    request. *)
Theorem chase_failures (df : DataFrame) (t : trace) :
  Main.detect_format df = "chase" →
  (rows df ≠ [] →
   ∀ e t', normalize df "chase" t = (inl e, t') →
     conversion_error e ∧ ∀ column, e ≠ KeyError column)
  ∧ (rows df = [] → normalize df "chase" t = (inl (KeyError "Amount"), t)).
Proof.
  intros Hdetect.
  assert ("Transaction Date" ∈ columns df ∧ "Description" ∈ columns df
          ∧ "Amount" ∈ columns df) as (Hdate & Hdesc & Hamount).
  { rewrite detect_format_cases in Hdetect.
    repeat case_bool_decide; try done.
    match goal with Hc : chase_signature _ |- _ =>
      unfold chase_signature, header in Hc end.
    rewrite <-!(elem_of_list_to_set (C := gset string)). set_solver. }
  split.
  - intros Hrows e t' Hrun.
    assert (conversion_error e) as He; [|split; [done|]; intros c ->;
      destruct He as [[s ?]|[[c' ?]|?]]; done].
    assert (columns (kept df) = columns df) as Hcolumns.
    { unfold kept, getitem_apply. by destruct (rows df). }
    assert (behaves (λ _, True) conversion_error (normalize df "chase")) as Hb.
    { unfold Main.normalize. rewrite (getitem_present df "Description") by done.
      apply behaves_bind'; [apply behaves_ret|]. intros _. simpl.
      change (getitem_apply _ df) with (kept df).
      rewrite (getitem_present (kept df) "Amount") by by rewrite Hcolumns.
      apply behaves_bind'; [apply behaves_ret|]. intros raw.
      apply behaves_bind'.
      { apply behaves_of_result. intros e' (x & _ & Hx)%convert_inl.
        unfold Main.chase_amount in Hx. destruct (float_of_str _); [done|].
        injection Hx as <-. left. eauto. }
      intros cleaned. apply canonical_conversion_errors.
      - simpl. rewrite Hcolumns. by rewrite bool_decide_eq_true_2.
      - simpl. rewrite Hcolumns. by rewrite bool_decide_eq_true_2.
      - rewrite getitem_present; [apply behaves_ret|].
        simpl. rewrite Hcolumns. by rewrite bool_decide_eq_true_2. }
    destruct (Hb t) as (_ & _ & _ & HQ). apply HQ. by rewrite Hrun.
  - intros Hrows. unfold Main.normalize.
    rewrite (getitem_present df "Description") by done.
    unfold getitem_apply. rewrite Hrows. reflexivity.
Qed.
End Branches.

(** ** One file, step by step *)

Definition is_http (ev : event) : Prop :=
  match ev with Http _ => True | _ => False end.

Definition norm_name (f : file) : string := stem f +:+ "_normalized.csv".

(** What [process_csv] does after reading a file, and what it returns. *)
Inductive step_outcome (f : file) : exn + unit → list event → Prop :=
| step_unknown :
    step_outcome f (inr tt) [Print (MsgUnknownFormat (name f))]
| step_normalize_failed https e :
    Forall is_http https → step_outcome f (inl e) https
| step_write_failed https table e :
    Forall is_http https →
    step_outcome f (inl (IOError e)) (https ++ [ToCsv (norm_name f) table])
| step_rename_failed https table e :
    Forall is_http https →
    step_outcome f (inl (IOError e)) (https ++ [ToCsv (norm_name f) table; Rename f])
| step_done https table :
    Forall is_http https →
    step_outcome f (inr tt)
      (https ++ [ToCsv (norm_name f) table; Rename f;
                 Print (MsgProcessed (name f) (norm_name f))]).




Section Steps.
Context `{Platform} `{Environment}.
Variable FILTER_KEYWORDS : list string.
Variable FEEDBACK_TAGS : gmap string value.

Local Abbreviation normalize := (Main.normalize FILTER_KEYWORDS FEEDBACK_TAGS).
Local Abbreviation process_csv := (Main.process_csv FILTER_KEYWORDS FEEDBACK_TAGS).
Local Abbreviation run_pipeline := (Main.run_pipeline FILTER_KEYWORDS FEEDBACK_TAGS).

Lemma after_read_cases f df t0 :
  ∃ r evs, after_read FILTER_KEYWORDS FEEDBACK_TAGS f df t0 = (r, t0 ++ evs)
    ∧ step_outcome f r evs
    ∧ ∀ table, ToCsv (norm_name f) table ∈ evs →
        ∃ out t1, normalize df (Main.detect_format df) t0 = (inr out, t1)
                  ∧ table = out.*2.
Proof.
  unfold after_read. cbv zeta.
  destruct (String.eqb_spec (Main.detect_format df) "unknown") as [Heq|Hne].
  { exists (inr tt), [Print (MsgUnknownFormat (name f))].
    split; [done|]. split; [constructor|].
    intros table [Hin|Hin%elem_of_nil]%elem_of_cons; done. }
  destruct (normalize_behaves FILTER_KEYWORDS FEEDBACK_TAGS df (Main.detect_format df) t0)
    as (https & Ht & Habout & _).
  assert (Forall is_http https) as Hhttp.
  { eapply Forall_impl; [exact Habout|]. by intros ev (x & _ & [-> | ->]). }
  assert (∀ table rest tbl, ToCsv (norm_name f) table ∈ https ++ ToCsv (norm_name f) tbl :: rest →
            (∀ x, x ∈ rest → ∀ n y, x ≠ ToCsv n y) → table = tbl) as Htable.
  { intros table rest tbl [Hin|[Hin|Hin]%elem_of_cons]%elem_of_app Hrest.
    - rewrite Forall_forall in Hhttp. by destruct (Hhttp _ Hin).
    - by injection Hin.
    - by destruct (Hrest _ Hin (norm_name f) table). }
  unfold mbind at 1. unfold M_bind at 1.
  destruct (normalize df (Main.detect_format df) t0) as [[e|out] t1] eqn:Hrun;
    simpl in Ht; subst t1.
  { exists (inl e), https. split; [done|]. split; [by constructor|].
    intros table Hin. rewrite Forall_forall in Hhttp. by destruct (Hhttp _ Hin). }
  unfold to_csv, rename, print, emit. run. fold (norm_name f).
  destruct (write_outcome (t0 ++ https) (norm_name f)) as [e|].
  { exists (inl (IOError e)), (https ++ [ToCsv (norm_name f) out.*2]).
    split; [by rewrite app_assoc|]. split; [by constructor|].
    intros table Hin. exists out, (t0 ++ https). split; [done|].
    apply (Htable _ [] _ Hin). intros x Hx. by apply elem_of_nil in Hx. }
  destruct (rename_outcome _ f) as [e|].
  { exists (inl (IOError e)), (https ++ [ToCsv (norm_name f) out.*2; Rename f]).
    split; [by rewrite <-!app_assoc|]. split; [by constructor|].
    intros table Hin. exists out, (t0 ++ https). split; [done|].
    apply (Htable _ [Rename f] _ Hin).
    intros x ->%list_elem_of_singleton. done. }
  exists (inr tt), (https ++ [ToCsv (norm_name f) out.*2; Rename f;
                              Print (MsgProcessed (name f) (norm_name f))]).
  split; [by rewrite <-!app_assoc|]. split; [by constructor|].
  intros table Hin. exists out, (t0 ++ https). split; [done|].
  apply (Htable _ [Rename f; Print (MsgProcessed (name f) (norm_name f))] _ Hin).
  intros x [->| ->%list_elem_of_singleton]%elem_of_cons; done.
Qed.

(** [process_csv] always starts by reading the file.  If reading fails
    nothing else happens.  Otherwise the file is either reported as
    unknown, or normalized, written, renamed and reported, in this order,
    stopping at the first step that fails: the source file is renamed only
    after its normalized file was written, and reported as processed only
    after it was renamed.  What is written is the normalized frame without
    its row labels. *)
Theorem process_csv_steps (f : file) (t : trace) :
  ∃ r evs, process_csv f t = (r, t ++ ReadCsv f :: evs)
    ∧ ((∃ e, csv_contents t f = inl e ∧ r = inl (IOError e) ∧ evs = [])
       ∨ (∃ df, csv_contents t f = inr df ∧ step_outcome f r evs
            ∧ ∀ table, ToCsv (norm_name f) table ∈ evs →
                ∃ out t1, normalize df (Main.detect_format df) (t ++ [ReadCsv f])
                            = (inr out, t1)
                          ∧ table = out.*2)).
Proof.
  rewrite process_csv_read. destruct (csv_contents t f) as [e|df].
  - exists (inl (IOError e)), []. split; [done|]. left. by exists e.
  - destruct (after_read_cases f df (t ++ [ReadCsv f])) as (r & evs & -> & Hstep & Htable).
    exists r, evs. split; [by rewrite <-app_assoc|]. right. by exists df.
Qed.

(** A file whose format is recognized but which has no Description column
    fails as soon as it is read: nothing is requested, written or renamed,
    and the batch reports it as failed with the missing column. *)
Theorem process_csv_without_description (f : file) (df : DataFrame) (t : trace) :
  csv_contents t f = inr df →
  Main.detect_format df ≠ "unknown" →
  "Description" ∉ columns df →
  process_csv f t = (inl (KeyError "Description"), t ++ [ReadCsv f])
  ∧ run_pipeline [f] t =
      (inr tt, t ++ [ReadCsv f; Print (MsgFailed (name f) (KeyError "Description"))]).
Proof.
  intros Hdf Hknown Hmissing.
  assert (process_csv f t = (inl (KeyError "Description"), t ++ [ReadCsv f])) as Hrun.
  { rewrite process_csv_read, Hdf. unfold after_read. cbv zeta.
    apply String.eqb_neq in Hknown. rewrite Hknown.
    assert (getitem df "Description" = inl (KeyError "Description")) as Hget.
    { unfold getitem. by rewrite bool_decide_eq_false_2. }
    unfold Main.normalize. unfold mbind at 1. unfold M_bind at 1. by rewrite Hget. }
  split; [done|]. rewrite run_pipeline_step, Hrun. simpl. by rewrite <-app_assoc.
Qed.

(** Running a batch is running its first part and then the rest, from the
    trace the first part left. *)
Theorem run_pipeline_app (first rest : list file) (t : trace) :
  run_pipeline (first ++ rest) t = run_pipeline rest (run_pipeline first t).2.
Proof.
  revert t. induction first as [|f first IH]; intros t; [done|].
  rewrite <-app_comm_cons, !run_pipeline_step. apply IH.
Qed.

End Steps.

(** ** What the persister adds *)

Section Appending.
Context {V : Type} `{EqDecision V}.
Variable outflow : V.
Variable acceptable_row : V * V * V * V * V * V * V → bool.
Variable connect : option DbLoader.connect_error.

Local Abbreviation StoredRow := (@DbLoader.StoredRow V).
Local Abbreviation dedup_key := (@DbLoader.dedup_key V).
Local Abbreviation insert_row := (DbLoader.insert_row outflow acceptable_row).
Local Abbreviation parameters := (DbLoader.parameters outflow).
Local Abbreviation insert_dataframe := (DbLoader.insert_dataframe outflow acceptable_row connect).

Lemma insert_row_pending (P : StoredRow → Prop)
    (acc : @DbLoader.session V * list (@DbLoader.report V)) (row : gmap string V) :
  Forall P (DbLoader.pending acc.1) →
  (∀ r, parameters row = inr r → P r) →
  Forall P (DbLoader.pending (insert_row acc row).1).
Proof.
  intros Hacc Hrow. unfold DbLoader.insert_row.
  destruct (parameters row) as [e|r]; [done|]. specialize (Hrow r eq_refl).
  unfold DbLoader.execute. destruct (DbLoader.failed acc.1); [done|].
  destruct (acceptable_row _); simpl; [|done].
  case_bool_decide; simpl; [done|]. apply Forall_app. split; [done | by constructor].
Qed.

Lemma foldl_insert_row_pending (P : StoredRow → Prop) (df : list (gmap string V))
    (acc : @DbLoader.session V * list (@DbLoader.report V)) :
  Forall P (DbLoader.pending acc.1) →
  (∀ row r, row ∈ df → parameters row = inr r → P r) →
  Forall P (DbLoader.pending (foldl insert_row acc df).1).
Proof.
  revert acc. induction df as [|row df IH]; intros acc Hacc Hall; [done|].
  simpl. apply IH.
  - apply insert_row_pending; [done|]. intros r. apply Hall. by left.
  - intros row' r Hin. apply Hall. by right.
Qed.

Lemma parameters_tagged (row : gmap string V) (file_name : V) (r : StoredRow) :
  parameters (<["filename" := file_name]> row) = inr r →
  DbLoader.filename r = file_name
  ∧ DbLoader.direction r = default outflow (row !! "direction")
  ∧ row !! "date" = Some (DbLoader.date r)
  ∧ row !! "description" = Some (DbLoader.description r)
  ∧ row !! "amount" = Some (DbLoader.amount r)
  ∧ row !! "category" = Some (DbLoader.category r)
  ∧ row !! "source" = Some (DbLoader.source r).
Proof.
  unfold DbLoader.parameters, DbLoader.column.
  rewrite lookup_insert_eq, !lookup_insert_ne by done.
  destruct (row !! "date"); [|done]. destruct (row !! "description"); [|done].
  destruct (row !! "amount"); [|done]. destruct (row !! "category"); [|done].
  destruct (row !! "source"); [|done]. by intros [= <-].
Qed.

(** The rows a call adds, each built from a row of the frame. *)
Lemma insert_dataframe_new (df : list (gmap string V)) (file_name : V)
    (store : list StoredRow) :
  ∃ new, (insert_dataframe df file_name store).1.2 = store ++ new
    ∧ Forall (λ r, ∃ row, row ∈ df ∧ parameters (<["filename" := file_name]> row) = inr r)
        new.
Proof.
  rewrite insert_dataframe_run. destruct connect as [e|]; simpl.
  { exists []. by rewrite app_nil_r. }
  pose proof (foldl_insert_row_spec outflow acceptable_row (tagged file_name df)
                (DbLoader.begin store, [])) as (F1 & _).
  pose proof (foldl_insert_row_pending
                (λ r, ∃ row, row ∈ df ∧ parameters (<["filename" := file_name]> row) = inr r)
                (tagged file_name df) (DbLoader.begin store, [])) as Hnew.
  unfold DbLoader.commit, DbLoader.visible.
  destruct (DbLoader.failed _).
  - exists []. rewrite F1. simpl. by rewrite app_nil_r.
  - exists (DbLoader.pending
              (foldl insert_row (DbLoader.begin store, []) (tagged file_name df)).1).
    rewrite F1. split; [done|]. apply Hnew; [constructor|].
    intros row r (row0 & -> & Hin)%list_elem_of_fmap Hr. by exists row0.
Qed.

(** [insert_dataframe] only ever adds rows: the store afterwards is the
    store before, unchanged and in place, followed by the new rows.  Each
    new row comes from a row of the frame that has the five required
    columns, carries the file name given to the call (whatever a
    "filename" column of the frame said), and has the direction of its
    frame row or, without one, the default ["outflow"]. *)
Theorem insert_dataframe_appends (df : list (gmap string V)) (file_name : V)
    (store : list StoredRow) :
  ∃ new, (insert_dataframe df file_name store).1.2 = store ++ new
    ∧ Forall
        (λ r, DbLoader.filename r = file_name
              ∧ ∃ row, row ∈ df
                  ∧ DbLoader.direction r = default outflow (row !! "direction")
                  ∧ row !! "date" = Some (DbLoader.date r)
                  ∧ row !! "description" = Some (DbLoader.description r)
                  ∧ row !! "amount" = Some (DbLoader.amount r)
                  ∧ row !! "category" = Some (DbLoader.category r)
                  ∧ row !! "source" = Some (DbLoader.source r))
        new.
Proof.
  destruct (insert_dataframe_new df file_name store) as (new & Hafter & Hnew).
  exists new. split; [done|]. eapply Forall_impl; [exact Hnew|].
  intros r (row & Hin & Hr). apply parameters_tagged in Hr as (Hf & Hrest).
  split; [done|]. by exists row.
Qed.

(** When the connection opens and every row goes through, the keys in
    the store afterwards are exactly the keys that were there and the
    keys of the rows of the frame. *)
Theorem insert_dataframe_keys (df : list (gmap string V)) (file_name : V)
    (store : list StoredRow) :
  connect = None →
  (∀ row, row ∈ tagged file_name df → ∃ r, storable outflow acceptable_row row r) →
  ∀ k, k ∈ keys (insert_dataframe df file_name store).1.2 ↔
       k ∈ keys store
       ∨ ∃ row r, row ∈ tagged file_name df ∧ parameters row = inr r ∧ dedup_key r = k.
Proof.
  intros Hconnect Hall k. split.
  - destruct (insert_dataframe_new df file_name store) as (new & -> & Hnew).
    unfold keys. rewrite fmap_app, elem_of_app.
    intros [Hk|(r & -> & Hr)%list_elem_of_fmap]; [by left|]. right.
    rewrite Forall_forall in Hnew. destruct (Hnew r Hr) as (row & Hin & Hrow).
    exists (<["filename" := file_name]> row), r. split; [|done].
    apply list_elem_of_fmap. by exists row.
  - rewrite insert_dataframe_run, Hconnect. simpl.
    pose proof (foldl_insert_row_spec outflow acceptable_row (tagged file_name df)
                  (DbLoader.begin store, [])) as (_ & _ & _ & F4 & F5).
    pose proof (foldl_insert_row_storable outflow acceptable_row (tagged file_name df)
                  (DbLoader.begin store, []) eq_refl Hall) as Hok.
    unfold DbLoader.commit. rewrite Hok. simpl in F4. rewrite visible_begin in F4.
    intros [Hk|(row & r & Hin & Hr & <-)]; [by apply F4|].
    by apply (F5 Hok row).
Qed.
End Appending.

(** ** Detection and extra columns *)

(** Columns added to a file never turn an AmEx file into anything else, a
    Chase file into anything but Chase or AmEx, or a CapitalOne file into
    anything but CapitalOne, Chase or AmEx; and as long as the AmEx column
    is not among the additions, a Chase file stays Chase. *)
Theorem detect_format_extra_columns (df df' : DataFrame) :
  header df ⊆ header df' →
  (Main.detect_format df = "amex" → Main.detect_format df' = "amex")
  ∧ (Main.detect_format df = "chase" →
     Main.detect_format df' = "amex" ∨ Main.detect_format df' = "chase")
  ∧ (Main.detect_format df = "chase" → ¬ amex_signature (header df') →
     Main.detect_format df' = "chase")
  ∧ (Main.detect_format df = "capone" →
     Main.detect_format df' ∈ ["amex"; "chase"; "capone"]).
Proof.
  intros Hsub.
  assert (amex_signature (header df) → amex_signature (header df')) as Hamex
    by (unfold amex_signature; set_solver).
  assert (chase_signature (header df) → chase_signature (header df')) as Hchase
    by (unfold chase_signature; set_solver).
  assert (capone_signature (header df) → capone_signature (header df')) as Hcapone
    by (unfold capone_signature; set_solver).
  assert (capone_signature (header df) → ¬ bilt_signature (header df')) as Hbilt
    by (unfold capone_signature, bilt_signature; set_solver).
  clear Hsub. rewrite !detect_format_cases.
  repeat split; intros; repeat case_bool_decide; try done;
    rewrite ?elem_of_cons; tauto.
Qed.

(** ** More sample runs *)

Section MoreSamples.
#[local] Existing Instance Stub.platform.

Lemma capone_run_ok : capone_run = (inr capone_out, capone_run.2).
Proof. vm_compute; reflexivity. Qed.

(** Two rows that are kept, read while the lookup service comes up. *)
Definition two_rows_file : DataFrame :=
  Stub.table
    ["Transaction Date"; "Posted Date"; "Card No."; "Description"; "Category"; "Debit"; "Credit"]
    [ [CStr "2024-01-05"; CStr "2024-01-06"; CNum 1234; CStr "Uber Trip"; CStr "Other";
       CNum 15; CNum nan];
      [CStr "2024-01-07"; CStr "2024-01-08"; CNum 1234; CStr "Blue Bottle";
       CStr "Dining"; CNum 4.5; CNum nan] ].

Definition two_rows_run : (exn + Series NormRow) * trace :=
  Main.normalize (H0 := recovering) [] ∅ two_rows_file "capone" [].

Definition two_rows_out : Series NormRow :=
  match two_rows_run.1 with
  | inr out => out
  | inl _ => []
  end.

(** The first lookup finds the service down and keeps the raw
    description; the second, made after it, gets the name the service
    answers.  The second description matches no vendor rule and the
    categorization service is down. *)
Lemma normalize_rows_witness :
  (λ o, (description o.2, category o.2, source o.2)) <$> two_rows_out
  = [ (VStr "Uber Trip", VStr "Transport", "CapitalOne");
      (VStr "Uber Technologies", VStr "Uncategorized", "CapitalOne") ]
  ∧ two_rows_out.*1 = (rows (kept [] two_rows_file)).*1
  ∧ ∀ k r o, rows (kept [] two_rows_file) !! k = Some r → two_rows_out !! k = Some o →
      description o.2 =
        enriched (description_of r.2)
          (http_reply (Environment := recovering)
             ([] ++ take k ((λ r, Http (suggest_url (description_of r.2)))
                              <$> rows (kept [] two_rows_file)))
             (suggest_url (description_of r.2))).
Proof.
  split; [vm_compute; reflexivity|].
  destruct (normalize_rows (H0 := recovering) [] ∅ two_rows_file "capone" []
              two_rows_out two_rows_run.2)
    as (date_column & label & _ & Hidx & _ & Hrows); [vm_compute; reflexivity|].
  split; [exact Hidx|].
  intros k r o Hr Ho. by destruct (Hrows k r o Hr Ho) as (_ & Hd & _).
Defined.

(** One lookup for the Uber row, and no categorization request, since a
    vendor rule matches it. *)
Lemma normalize_requests_witness :
  capone_run.2 = [Http (suggest_url (CStr "Uber Trip"))].
Proof.
  rewrite (normalize_requests (H0 := offline_world) ["payment"] ∅ capone_file "capone" []
             capone_out capone_run.2 capone_run_ok).
  vm_compute; reflexivity.
Defined.

Definition amex_file : DataFrame :=
  Stub.table
    ["Date"; "Description"; "Amount"; "Appears On Your Statement As"]
    [ [CStr "2024-03-01"; CStr "Hotel Refund"; CStr "-25.00"; CStr "HOTEL REFUND"] ].

Definition amex_run : (exn + Series NormRow) * trace :=
  Main.normalize (H0 := offline_world) [] ∅ amex_file "amex" [].

Definition amex_out : Series NormRow :=
  match amex_run.1 with
  | inr out => out
  | inl _ => []
  end.

(** A refund keeps its minus sign. *)
Lemma plain_amounts_signed_witness :
  Forall2
    (λ r o, r.1 = o.1 ∧ ∃ f,
       Main.astype_float (cell_of "Amount" r.2) = inr f ∧ amount o.2 = CNum f)
    (rows (kept [] amex_file)) amex_out
  ∧ (λ o, amount o.2) <$> amex_out = [CNum (-25)].
Proof.
  split; [|vm_compute; reflexivity].
  apply (proj1 (plain_amounts_signed (H0 := offline_world) [] ∅ amex_file "amex" []
                  (or_introl eq_refl)) amex_out amex_run.2).
  vm_compute; reflexivity.
Defined.

Definition chase_run : (exn + Series NormRow) * trace :=
  Main.normalize (H0 := offline_world) [] ∅ chase_file "chase" [].

Definition chase_out : Series NormRow :=
  match chase_run.1 with
  | inr out => out
  | inl _ => []
  end.

Lemma chase_amounts_not_negative_witness :
  Forall (λ o, ∃ f, amount o.2 = CNum f ∧ (f <? 0)%float = false) chase_out.
Proof.
  apply (chase_amounts_not_negative (H0 := offline_world) [] ∅ chase_file [] chase_out
           chase_run.2).
  vm_compute; reflexivity.
Defined.

Definition bad_chase_file : DataFrame :=
  Stub.table
    ["Transaction Date"; "Post Date"; "Description"; "Category"; "Type"; "Amount"; "Memo"]
    [ [CStr "2024-02-01"; CStr "2024-02-02"; CStr "Walmart Supercenter"; CStr "Shopping";
       CStr "Sale"; CStr "twelve"; CNum nan] ].

(** A Chase export that has its header and no transaction. *)
Definition header_only_chase : DataFrame :=
  Stub.table
    ["Transaction Date"; "Post Date"; "Description"; "Category"; "Type"; "Amount"; "Memo"]
    [].

(** An Amount that is no number fails the file with a conversion error;
    a file without rows fails for the Amount column. *)
Lemma chase_failures_witness :
  (conversion_error (ValueError_float "twelve")
   ∧ ∀ column, ValueError_float "twelve" ≠ KeyError column)
  ∧ Main.normalize (H0 := offline_world) [] ∅ header_only_chase "chase" []
    = (inl (KeyError "Amount"), []).
Proof.
  split.
  - apply (proj1 (chase_failures (H0 := offline_world) [] ∅ bad_chase_file []
                    ltac:(vm_compute; reflexivity))
             ltac:(vm_compute; discriminate) _ []).
    vm_compute; reflexivity.
  - apply (proj2 (chase_failures (H0 := offline_world) [] ∅ header_only_chase []
                    ltac:(vm_compute; reflexivity))).
    reflexivity.
Defined.

Definition headless_file : DataFrame :=
  Stub.table ["Appears On Your Statement As"; "Amount"] [ [CStr "HOTEL"; CStr "10.00"] ].

Definition headless_world : Environment :=
  Stub.world Stub.offline (λ _, inr headless_file).

(** A file that has the AmEx column but no Description. *)
Lemma process_csv_without_description_witness :
  Main.run_pipeline (H0 := headless_world) [] ∅ [{| stem := "amex" |}] [] =
    (inr tt,
     [ReadCsv {| stem := "amex" |};
      Print (MsgFailed "amex.csv" (KeyError "Description"))]).
Proof.
  apply (process_csv_without_description (H0 := headless_world) [] ∅ {| stem := "amex" |}
           headless_file []).
  - reflexivity.
  - vm_compute. discriminate.
  - vm_compute. intros Hin. repeat (apply elem_of_cons in Hin as [Hin|Hin]; [discriminate|]).
    by apply elem_of_nil in Hin.
Defined.

(** The key of the sample record is in the store after the first run. *)
Lemma insert_dataframe_keys_witness :
  ("2024-01-05", "Uber Trip", "15.0", "CapitalOne", "capone.csv") ∈ keys first_run.1.2.
Proof.
  apply (insert_dataframe_keys "outflow" (λ _, true) None [stored_sample] "capone.csv" []
           eq_refl).
  - intros row Hrow. apply list_elem_of_singleton in Hrow as ->.
    eexists. split; [vm_compute; reflexivity | reflexivity].
  - right. eexists _, _. split; [by left|]. split; vm_compute; reflexivity.
Defined.

Definition wide_chase_file : DataFrame :=
  Stub.table
    ["Transaction Date"; "Post Date"; "Description"; "Category"; "Type"; "Amount"; "Memo";
     "Notes"]
    [].

(** A Chase export with one more column is still a Chase file. *)
Lemma detect_format_extra_columns_witness : Main.detect_format wide_chase_file = "chase".
Proof.
  apply (detect_format_extra_columns chase_file wide_chase_file).
  - apply (bool_decide_eq_true_1 _). vm_compute; reflexivity.
  - vm_compute; reflexivity.
  - apply (bool_decide_eq_false_1 _). vm_compute; reflexivity.
Defined.
End MoreSamples.
